(** * FlagGems [utils/libentry.py]: the dispatch cache and the tuner store

    A shallow embedding of [LibEntry] (argument classification, cache key,
    single-flight compile path, launch-shape resolution) and of [LibTuner]
    ([getvalue], [preload], [store] over the per-kernel SQLite table).

    Python objects are values of [pyval]; dictionaries with string keys
    ([kwargs], [constexprs], the grid's [meta]) are [gmap string pyval];
    the per-device kernel cache, whose keys are compared with Python's [==],
    is an insertion-ordered association list; exceptions are the [Raise]
    outcome of a small error monad. *)

From Stdlib Require Import ZArith String Ascii List Lia Bool DecimalString DecimalZ DecimalPos.
From stdpp Require Import base option list gmap strings.

Open Scope Z_scope.

(** ** Python values *)

Module Py.

(** The [torch.dtype] singletons that can appear in a key. *)
Inductive dtype :=
| float16 | bfloat16 | float32 | float64
| int8 | int16 | int32 | int64 | uint8 | bool_.

(** The result of [type(arg)]. *)
Inductive pytype :=
| TNoneType | TBool | TInt | TStr | TTuple | TDtype | TType
| TTensor | TFunction | TGenerator.

(** The objects that reach [LibEntry.run] and [LibTuner]: scalars, strings,
    dtypes, type objects, tuples, device buffers (the only values with a
    [data_ptr] attribute), callables and generator objects.  Buffers,
    callables and generators carry the identity of the object.  Floating
    point scalars are outside this universe. *)
#[local] Unset Elimination Schemes.
Inductive pyval :=
| VNone
| VBool (b : bool)
| VInt (z : Z)
| VStr (s : string)
| VDtype (d : dtype)
| VType (t : pytype)
| VTuple (items : list pyval)
| VTensor (id : nat) (dt : dtype) (data_ptr : Z)
| VCallable (id : nat)
| VGenerator (id : nat).
#[local] Set Elimination Schemes.

Definition type_of (v : pyval) : pytype :=
  match v with
  | VNone => TNoneType
  | VBool _ => TBool
  | VInt _ => TInt
  | VStr _ => TStr
  | VDtype _ => TDtype
  | VType _ => TType
  | VTuple _ => TTuple
  | VTensor _ _ _ => TTensor
  | VCallable _ => TFunction
  | VGenerator _ => TGenerator
  end.

(** [hasattr(arg, "data_ptr")] *)
Definition has_data_ptr (v : pyval) : bool :=
  match v with VTensor _ _ _ => true | _ => false end.

(** [isinstance(arg, int)]: [bool] is a subclass of [int]. *)
Definition int_of (v : pyval) : option Z :=
  match v with
  | VBool b => Some (Z.b2z b)
  | VInt z => Some z
  | _ => None
  end.

Definition isinstance_int (v : pyval) : bool :=
  match int_of v with Some _ => true | None => false end.

(** [callable(grid)] *)
Definition callable (v : pyval) : bool :=
  match v with VCallable _ => true | _ => false end.

Definition dtype_eqb (a b : dtype) : bool :=
  match a, b with
  | float16, float16 | bfloat16, bfloat16 | float32, float32
  | float64, float64 | int8, int8 | int16, int16 | int32, int32
  | int64, int64 | uint8, uint8 | bool_, bool_ => true
  | _, _ => false
  end.

Definition pytype_eqb (a b : pytype) : bool :=
  match a, b with
  | TNoneType, TNoneType | TBool, TBool | TInt, TInt | TStr, TStr
  | TTuple, TTuple | TDtype, TDtype | TType, TType | TTensor, TTensor
  | TFunction, TFunction | TGenerator, TGenerator => true
  | _, _ => false
  end.

(** Python's [==] as the dictionary uses it on keys: [True == 1], tuples are
    compared item by item, objects without a value equality (buffers,
    callables, generators) by identity. *)
Fixpoint py_eqb (a b : pyval) : bool :=
  match a, b with
  | VNone, VNone => true
  | VBool x, VBool y => Z.b2z x =? Z.b2z y
  | VBool x, VInt y => Z.b2z x =? y
  | VInt x, VBool y => x =? Z.b2z y
  | VInt x, VInt y => x =? y
  | VStr s, VStr t => String.eqb s t
  | VDtype d, VDtype e => dtype_eqb d e
  | VType s, VType t => pytype_eqb s t
  | VTuple l, VTuple m =>
      (fix items_eqb (l m : list pyval) {struct l} : bool :=
         match l, m with
         | [], [] => true
         | x :: l', y :: m' => py_eqb x y && items_eqb l' m'
         | _, _ => false
         end) l m
  | VTensor i _ _, VTensor j _ _ => Nat.eqb i j
  | VCallable i, VCallable j => Nat.eqb i j
  | VGenerator i, VGenerator j => Nat.eqb i j
  | _, _ => false
  end.

Fixpoint items_eqb (l m : list pyval) : bool :=
  match l, m with
  | [], [] => true
  | x :: l', y :: m' => py_eqb x y && items_eqb l' m'
  | _, _ => false
  end.

End Py.

(** ** Exceptions and Python dictionaries *)

Module Exn.

Inductive exn :=
| KeyError (key : string)
| IndexError
| ValueError
| TypeError
| AttributeError (attr : string)
| EvalError
| RuntimeError (msg : string).

(** A call either returns or raises. *)
Inductive outcome (A : Type) :=
| Ret (a : A)
| Raise (e : exn).
Arguments Ret {A} a.
Arguments Raise {A} e.

Definition bind {A B} (m : outcome A) (k : A → outcome B) : outcome B :=
  match m with
  | Ret a => k a
  | Raise e => Raise e
  end.

Definition returns {A} (m : outcome A) : bool :=
  match m with Ret _ => true | Raise _ => false end.

End Exn.

(** [x ← m; k] sequences two steps; a raised exception skips the rest. *)
#[export] Instance outcome_bind : MBind Exn.outcome :=
  λ A B k m, Exn.bind m k.

Module PyDict.
Import Py.

(** A Python [dict] whose keys are arbitrary hashable objects: insertion
    ordered, keys compared with [==]. *)
Definition pydict (V : Type) := list (pyval * V).

Section Ops.
Context {V : Type}.

(** [d[k]] / [k in d] *)
Fixpoint get (k : pyval) (d : pydict V) : option V :=
  match d with
  | [] => None
  | (k', v) :: d' => if py_eqb k' k then Some v else get k d'
  end.

(** [d[k] = v]: an equal key keeps its slot (and its first key object). *)
Fixpoint set (k : pyval) (v : V) (d : pydict V) : pydict V :=
  match d with
  | [] => [(k, v)]
  | (k', v') :: d' =>
      if py_eqb k' k then (k', v) :: d' else (k', v') :: set k v d'
  end.

Definition contains (k : pyval) (d : pydict V) : bool :=
  match get k d with Some _ => true | None => false end.

End Ops.

End PyDict.

(** ** The parts of Triton that [libentry.py] reads *)

Module Triton.
Import Py.

(** [triton.Config]: the meta-parameters [kwargs] (a dict, in insertion
    order) and the launch hints. *)
Record Config := {
  kwargs : list (string * pyval);
  num_warps : Z;
  num_ctas : Z;
  num_stages : Z;
  enable_fp_fusion : pyval;
}.

(** [config.kwargs[k] = v] on the insertion-ordered dict. *)
Fixpoint kwargs_set (k : string) (v : pyval) (d : list (string * pyval))
  : list (string * pyval) :=
  match d with
  | [] => [(k, v)]
  | (k', v') :: d' =>
      if String.eqb k' k then (k', v) :: d' else (k', v') :: kwargs_set k v d'
  end.

(** [{**m, **d}] for an ordered dict [d] spread over a map [m]. *)
Definition spread (d : list (string * pyval)) (m : gmap string pyval)
  : gmap string pyval :=
  foldl (λ acc kv, <[kv.1 := kv.2]> acc) m d.

(** [dict(zip(names, values))]: [zip] stops at the shorter list. *)
Definition dict_zip (names : list string) (values : list pyval)
  : gmap string pyval :=
  spread (zip names values) ∅.

(** [jit_function.params]: [default = None] stands for [inspect._empty]. *)
Record KernelParam := {
  num : nat;
  name : string;
  is_constexpr : bool;
  do_not_specialize : bool;
  default : option pyval;
}.

End Triton.

(** ** [LibEntry]: classification, key, and [run] *)

Module Entry.
Import Py Exn PyDict Triton.

(** The chain of decision stages that [libentry()] wraps, outermost first.
    Every stage has [arg_names] and, except the innermost [JITFunction], an
    attribute [fn].  [best_config n args kwargs] is the configuration an
    [Autotuner] holds when the [n]-th [self.fn.run] of the process has
    returned; [Wrapper] is any other object with an [fn]. *)
Inductive runtime_fn :=
| JITFunction (arg_names : list string) (params : list KernelParam)
| Autotuner (arg_names : list string)
    (best_config : nat → list pyval → gmap string pyval → Config)
    (fn : runtime_fn)
| Heuristics (arg_names : list string)
    (values : list (string * (gmap string pyval → pyval)))
    (fn : runtime_fn)
| Wrapper (arg_names : list string) (fn : runtime_fn).

Definition fn_arg_names (f : runtime_fn) : list string :=
  match f with
  | JITFunction a _ | Autotuner a _ _ | Heuristics a _ _ | Wrapper a _ => a
  end.

(** [while not isinstance(fn, JITFunction): fn = fn.fn], then [.params]. *)
Fixpoint jit_params (f : runtime_fn) : list KernelParam :=
  match f with
  | JITFunction _ ps => ps
  | Autotuner _ _ f' | Heuristics _ _ f' | Wrapper _ f' => jit_params f'
  end.

(** What lies outside the file: the compiled kernel object that the [n]-th
    [self.fn.run] returns, and the application of a callable object. *)
Record World := {
  fn_run : nat → list pyval → gmap string pyval → nat;
  call : nat → gmap string pyval → pyval;
}.

(** The fields [__init__] sets. *)
Record LibEntry := {
  fn : runtime_fn;
  device_count : nat;
}.

Definition arg_names (self : LibEntry) : list string := fn_arg_names (fn self).
Definition divisibility : Z := 16.
Definition params (self : LibEntry) : list KernelParam := jit_params (fn self).

Definition specialize_indices (self : LibEntry) : list nat :=
  map num (List.filter
    (λ p, negb (is_constexpr p) && negb (do_not_specialize p)) (params self)).

Definition do_not_specialize_indices (self : LibEntry) : list nat :=
  map num (List.filter
    (λ p, negb (is_constexpr p) && do_not_specialize p) (params self)).

(** *** [key] *)

Definition spec_key_item (arg : pyval) : pyval :=
  match arg with
  | VTensor _ dt ptr => VTuple [VDtype dt; VBool (ptr mod divisibility =? 0)]
  | _ => VTuple [VType (type_of arg); arg]
  end.

Definition dns_key_item (arg : pyval) : pyval :=
  match arg with
  | VTensor _ dt _ => VDtype dt
  | _ =>
      match int_of arg with
      | None => VType (type_of arg)
      | Some z =>
          if (- 2 ^ 31 <=? z) && (z <=? 2 ^ 31 - 1) then VStr "i32"
          else if (2 ^ 63 <=? z) && (z <=? 2 ^ 64 - 1) then VStr "u64"
          else VStr "i64"
      end
  end.

Definition key (spec_args dns_args const_args : list pyval) : pyval :=
  VTuple (map spec_key_item spec_args ++ map dns_key_item dns_args
          ++ const_args).

(** *** Collecting the arguments *)

Record Groups := {
  spec_args : list pyval;
  dns_args : list pyval;
  const_args : list pyval;
  k_args : list pyval;
}.

Definition no_args : Groups :=
  {| spec_args := []; dns_args := []; const_args := []; k_args := [] |}.

Definition add_spec (v : pyval) (g : Groups) : Groups :=
  {| spec_args := spec_args g ++ [v]; dns_args := dns_args g;
     const_args := const_args g; k_args := k_args g ++ [v] |}.

Definition add_dns (v : pyval) (g : Groups) : Groups :=
  {| spec_args := spec_args g; dns_args := dns_args g ++ [v];
     const_args := const_args g; k_args := k_args g ++ [v] |}.

Definition add_const (v : pyval) (g : Groups) : Groups :=
  {| spec_args := spec_args g; dns_args := dns_args g;
     const_args := const_args g ++ [v]; k_args := k_args g |}.

(** [for i, arg in enumerate(args)] *)
Definition collect_positional (self : LibEntry) (args : list pyval) : Groups :=
  foldl (λ g ia,
           if bool_decide (ia.1 ∈ specialize_indices self)
           then add_spec ia.2 g
           else if bool_decide (ia.1 ∈ do_not_specialize_indices self)
           then add_dns ia.2 g
           else add_const ia.2 g)
        no_args (imap pair args).

(** [for p in self.jit_function.params[len(args):]] *)
Definition collect_rest (self : LibEntry) (nargs : nat)
    (kwargs : gmap string pyval) (g : Groups) : Groups :=
  foldl (λ g p,
           let val := match kwargs !! name p with
                      | Some v => Some v
                      | None => default p
                      end in
           match val with
           | None => g
           | Some v =>
               if is_constexpr p then add_const v g
               else if do_not_specialize p then add_dns v g
               else add_spec v g
           end)
        g (drop nargs (params self)).

Definition collect_args (self : LibEntry) (args : list pyval)
    (kwargs : gmap string pyval) : Groups :=
  collect_rest self (length args) kwargs (collect_positional self args).

Definition entry_key (self : LibEntry) (args : list pyval)
    (kwargs : gmap string pyval) : pyval :=
  let g := collect_args self args kwargs in
  key (spec_args g) (dns_args g) (const_args g).

(** *** The compile path *)

(** [{**dict(zip(names, args)), **kwargs, **constexprs}]: the rightmost
    operand of the display wins, which is the leftmost of [∪]. *)
Definition merged (names : list string) (args : list pyval)
    (kwargs constexprs : gmap string pyval) : gmap string pyval :=
  constexprs ∪ (kwargs ∪ dict_zip names args).

Definition invalid_runtime_function : exn :=
  RuntimeError "Invalid Runtime Function".

(** The loop that walks [self.fn] down to the [JITFunction]. *)
Fixpoint collect_constexprs (n : nat) (args : list pyval)
    (kwargs : gmap string pyval) (f : runtime_fn)
    (constexprs : gmap string pyval) : outcome (gmap string pyval) :=
  match f with
  | JITFunction _ _ => Ret constexprs
  | Autotuner _ best_config f' =>
      let config := best_config n args kwargs in
      let c1 := <["num_warps" := VInt (num_warps config)]> constexprs in
      let c2 := <["num_stages" := VInt (num_stages config)]> c1 in
      let c3 := match c2 !! "num_ctas" with
                | Some _ => <["num_ctas" := VInt (num_ctas config)]> c2
                | None => c2
                end in
      collect_constexprs n args kwargs f' (spread (Triton.kwargs config) c3)
  | Heuristics names values f' =>
      let c1 := foldl (λ c vh, <[vh.1 := vh.2 (merged names args kwargs c)]> c)
                      constexprs values in
      collect_constexprs n args kwargs f' c1
  | Wrapper _ _ => Raise invalid_runtime_function
  end.

(** [for p in self.jit_function.params: ... constexprs[p.name] = p.default] *)
Definition fill_defaults (ps : list KernelParam)
    (constexprs : gmap string pyval) : gmap string pyval :=
  foldl (λ c p,
           match is_constexpr p, c !! name p, default p with
           | true, None, Some d => <[name p := d]> c
           | _, _, _ => c
           end)
        constexprs ps.

(** A cached value, the pair [(kernel, constexprs)]: the kernel object and
    the constants dictionary. *)
Record CacheEntry := Entry {
  kernel : nat;
  constexprs : gmap string pyval;
}.

(** Lines 220-250 after [self.fn.run] has returned [kernel]. *)
Definition gather (self : LibEntry) (n : nat) (args : list pyval)
    (kwargs : gmap string pyval) (kernel : nat) : outcome CacheEntry :=
  c ← collect_constexprs n args kwargs (fn self) ∅;
  Ret (Entry kernel (fill_defaults (params self) c)).

(** *** The direct launch *)

Definition resolve_grid (self : LibEntry) (w : World) (grid : pyval)
    (args : list pyval) (kwargs constexprs : gmap string pyval)
  : outcome (list pyval) :=
  let grid := match grid with
              | VCallable f =>
                  call w f (merged (arg_names self) args kwargs constexprs)
              | _ => grid
              end in
  match grid with
  | VTuple g => Ret (take 3 (g ++ [VInt 1; VInt 1]))
  | _ => Raise TypeError
  end.

(** *** State and [run] *)

(** What a call does to the outside: [self.fn.run], the call of a callable
    [grid] on [meta], and the launch [kernel[grid[0:3]]] on [k_args]. *)
Inductive event :=
| EvFnRun (args : list pyval) (kwargs : gmap string pyval)
| EvGrid (f : nat) (meta : gmap string pyval)
| EvLaunch (kernel : nat) (grid : list pyval) (k_args : list pyval).

Definition is_fn_run (e : event) : bool :=
  match e with EvFnRun _ _ => true | _ => false end.

(** The events of lines 254-266. *)
Definition is_direct (e : event) : bool := negb (is_fn_run e).

(** [self.kernel_cache], one dictionary per device, and the history of
    events. *)
Record state := {
  kernel_cache : list (pydict CacheEntry);
  trace : list event;
}.

Definition init (self : LibEntry) : state :=
  {| kernel_cache := replicate (device_count self) []; trace := [] |}.

Definition passes (st : state) : nat :=
  length (List.filter is_fn_run (trace st)).

Definition direct_events (st : state) : list event :=
  List.filter is_direct (trace st).

Definition log (e : event) (st : state) : state :=
  {| kernel_cache := kernel_cache st; trace := trace st ++ [e] |}.

Definition publish (device : nat) (k : pyval) (e : CacheEntry) (st : state)
  : state :=
  {| kernel_cache := alter (set k e) device (kernel_cache st);
     trace := trace st |}.

(** The call [grid(meta)] of line 263, when [grid] is callable. *)
Definition log_grid (self : LibEntry) (grid : pyval) (args : list pyval)
    (kwargs constexprs : gmap string pyval) (st : state) : state :=
  match grid with
  | VCallable f =>
      log (EvGrid f (merged (arg_names self) args kwargs constexprs)) st
  | _ => st
  end.

(** [run] by one caller at a time; [device] is
    [torch.cuda.current_device()].  The lock is free on entry and on exit. *)
Definition run (self : LibEntry) (w : World) (device : nat)
    (args : list pyval) (kwargs : gmap string pyval) (st : state)
  : outcome CacheEntry * state :=
  match kwargs !! "grid" with
  | None => (Raise (KeyError "grid"), st)
  | Some grid =>
      let g := collect_args self args kwargs in
      let k := key (spec_args g) (dns_args g) (const_args g) in
      match kernel_cache st !! device with
      | None => (Raise IndexError, st)
      | Some cache =>
          match get k cache with
          | None =>
              let kernel := fn_run w (passes st) args kwargs in
              let st1 := log (EvFnRun args kwargs) st in
              match gather self (passes st) args kwargs kernel with
              | Raise e => (Raise e, st1)
              | Ret entry => (Ret entry, publish device k entry st1)
              end
          | Some (Entry kernel constexprs) =>
              let st1 := log_grid self grid args kwargs constexprs st in
              match resolve_grid self w grid args kwargs constexprs with
              | Raise e => (Raise e, st1)
              | Ret g3 =>
                  (Ret (Entry kernel constexprs),
                   log (EvLaunch kernel g3 (k_args g)) st1)
              end
          end
      end
  end.

(** A program that issues the calls one after the other: an exception
    propagates, so the calls behind a raising one are never made.  Each
    executed call is listed with its outcome and the state it leaves. *)
Fixpoint run_seq (self : LibEntry) (w : World) (device : nat)
    (calls : list (list pyval * gmap string pyval)) (st : state)
  : list (outcome CacheEntry * state) :=
  match calls with
  | [] => []
  | c :: calls' =>
      let r := run self w device c.1 c.2 st in
      r :: match r.1 with
           | Ret _ => run_seq self w device calls' r.2
           | Raise _ => []
           end
  end.

(** The two [isinstance] tests of the walk accept every stage of the chain. *)
Fixpoint recognized (f : runtime_fn) : bool :=
  match f with
  | JITFunction _ _ => true
  | Autotuner _ _ f' | Heuristics _ _ f' => recognized f'
  | Wrapper _ _ => false
  end.

(** The items of a key tuple. *)
Definition key_items (k : pyval) : list pyval :=
  match k with VTuple l => l | _ => [] end.

(** The signed 32-bit and the upper unsigned 64-bit range of [key]. *)
Definition in_i32 (z : Z) : Prop := - 2 ^ 31 ≤ z ≤ 2 ^ 31 - 1.
Definition in_u64 (z : Z) : Prop := 2 ^ 63 ≤ z ≤ 2 ^ 64 - 1.

(** The kernel receives the specializing and the runtime-only arguments. *)
Definition kernel_args_ok (g : Groups) : Prop :=
  k_args g ≡ₚ spec_args g ++ dns_args g.

(** The entry stored for [k] on [device], if any. *)
Definition cached (device : nat) (k : pyval) (st : state) : option CacheEntry :=
  kernel_cache st !! device ≫= get k.

End Entry.

(** ** Concurrent callers of [run] *)

Module Threads.
Import Py Exn PyDict Triton Entry.

(** How a caller leaves the [with self.lock] block. *)
Inductive leave :=
| Break
| Return (e : CacheEntry)
| Throw (x : exn).

(** Where a caller stands in [run].  Between two labels a caller touches the
    shared objects ([self.kernel_cache], [self.lock], Triton) at most once. *)
Inductive label :=
| AtEntry                          (* lines 178-213 *)
| AtLoop                           (* line 214: [while entry_key not in cache] *)
| AtLock                           (* line 217: waiting for [self.lock] *)
| AtRetest                         (* line 218: [if entry_key in cache] *)
| AtFnRun                          (* line 220: [self.fn.run] *)
| AtWalk (kernel : nat) (n : nat)  (* lines 221-250 *)
| AtPublish (e : CacheEntry)       (* line 251: [cache[entry_key] = ...] *)
| AtRelease (l : leave)            (* the end of the [with] block *)
| AtHit                            (* lines 254-267 *)
| Done (o : outcome CacheEntry).

Record thread := {
  t_args : list pyval;
  t_kwargs : gmap string pyval;
  pc : label;
}.

Definition goto (t : thread) (l : label) : thread :=
  {| t_args := t_args t; t_kwargs := t_kwargs t; pc := l |}.

(** What the callers share: the [LibEntry] state and [self.lock]. *)
Record shared := {
  st : state;
  locked : bool;
}.

Definition with_state (sh : shared) (s : state) : shared :=
  {| st := s; locked := locked sh |}.

(** One step of one caller; [None] when it has finished or has to wait. *)
Definition thread_step (self : LibEntry) (w : World) (device : nat)
    (sh : shared) (t : thread) : option (shared * label) :=
  let args := t_args t in
  let kwargs := t_kwargs t in
  let k := entry_key self args kwargs in
  match pc t with
  | AtEntry =>
      match kwargs !! "grid" with
      | None => Some (sh, Done (Raise (KeyError "grid")))
      | Some _ =>
          match kernel_cache (st sh) !! device with
          | None => Some (sh, Done (Raise IndexError))
          | Some _ => Some (sh, AtLoop)
          end
      end
  | AtLoop =>
      match cached device k (st sh) with
      | Some _ => Some (sh, AtHit)
      | None => Some (sh, AtLock)
      end
  | AtLock =>
      if locked sh then None
      else Some ({| st := st sh; locked := true |}, AtRetest)
  | AtRetest =>
      match cached device k (st sh) with
      | Some _ => Some (sh, AtRelease Break)
      | None => Some (sh, AtFnRun)
      end
  | AtFnRun =>
      let n := passes (st sh) in
      Some (with_state sh (log (EvFnRun args kwargs) (st sh)),
            AtWalk (fn_run w n args kwargs) n)
  | AtWalk kernel n =>
      match gather self n args kwargs kernel with
      | Ret e => Some (sh, AtPublish e)
      | Raise x => Some (sh, AtRelease (Throw x))
      end
  | AtPublish e =>
      Some (with_state sh (publish device k e (st sh)), AtRelease (Return e))
  | AtRelease l =>
      Some ({| st := st sh; locked := false |},
            match l with
            | Break => AtHit
            | Return e => Done (Ret e)
            | Throw x => Done (Raise x)
            end)
  | AtHit =>
      match cached device k (st sh), kwargs !! "grid" with
      | Some e, Some grid =>
          let st1 := log_grid self grid args kwargs (constexprs e) (st sh) in
          match resolve_grid self w grid args kwargs (constexprs e) with
          | Raise x => Some (with_state sh st1, Done (Raise x))
          | Ret g3 =>
              Some (with_state sh
                      (log (EvLaunch (kernel e) g3
                              (k_args (collect_args self args kwargs))) st1),
                    Done (Ret e))
          end
      | _, _ => Some (sh, Done (Raise (KeyError "entry_key")))
      end
  | Done _ => None
  end.

Record config := {
  mem : shared;
  threads : list thread;
}.

(** Any caller that can move may move next. *)
Inductive step (self : LibEntry) (w : World) (device : nat)
  : config → config → Prop :=
| step_thread sh sh' before t after l :
    thread_step self w device sh t = Some (sh', l) →
    step self w device
      {| mem := sh; threads := before ++ t :: after |}
      {| mem := sh'; threads := before ++ goto t l :: after |}.

(** [K] callers enter [run] while the lock is free. *)
Definition start (s : state)
    (calls : list (list pyval * gmap string pyval)) : config :=
  {| mem := {| st := s; locked := false |};
     threads := map (λ c, {| t_args := c.1; t_kwargs := c.2; pc := AtEntry |})
                    calls |}.

Definition is_done (l : label) : bool :=
  match l with Done _ => true | _ => false end.

Definition final (c : config) : Prop :=
  Forall (λ t, is_done (pc t) = true) (threads c).

(** The labels inside the [with self.lock] block. *)
Definition holds (l : label) : bool :=
  match l with
  | AtRetest | AtFnRun | AtWalk _ _ | AtPublish _ | AtRelease _ => true
  | _ => false
  end.




(** A schedule names the caller that moves next. *)
Fixpoint exec (self : LibEntry) (w : World) (device : nat)
    (schedule : list nat) (c : config) : option config :=
  match schedule with
  | [] => Some c
  | i :: schedule' =>
      match threads c !! i with
      | None => None
      | Some t =>
          match thread_step self w device (mem c) t with
          | None => None
          | Some (sh', l) =>
              exec self w device schedule'
                {| mem := sh'; threads := <[i := goto t l]> (threads c) |}
          end
      end
  end.

(** The call has a [grid] and it resolves to a tuple. *)
Definition grid_resolves (self : LibEntry) (w : World)
    (c : list pyval * gmap string pyval) : Prop :=
  ∃ grid, c.2 !! "grid" = Some grid ∧
    ∀ cx, returns (resolve_grid self w grid c.1 c.2 cx) = true.

(** *** The invariant of the interleavings *)

Definition count (p : label → bool) (ts : list thread) : nat :=
  length (List.filter (λ t, p (pc t)) ts).



Definition well_formed (self : LibEntry) (w : World) (k : pyval)
    (t : thread) : Prop :=
  py_eqb (entry_key self (t_args t) (t_kwargs t)) k = true ∧
  grid_resolves self w (t_args t, t_kwargs t).


End Threads.

(** ** [LibTuner]: the persistent table of tuned configurations *)

Module Tuner.
Import Py Exn PyDict Triton.
#[local] Open Scope string_scope.

(** *** Python string and list operations *)

(** [s.split(sep)] for a non-empty [sep]: [skip] counts the characters of a
    separator occurrence still to be dropped, [cur] is the piece read so
    far. *)
Fixpoint split_aux (sep : string) (skip : nat) (cur : string) (s : string)
  : list string :=
  match s with
  | EmptyString => [cur]
  | String c s' =>
      match skip with
      | S n => split_aux sep n cur s'
      | O =>
          if String.prefix sep s
          then cur :: split_aux sep (String.length sep - 1) "" s'
          else split_aux sep 0 (cur ++ String c "") s'
      end
  end.

Definition split (sep s : string) : list string := split_aux sep 0 "" s.

(** [sep.join(l)] *)
Fixpoint join (sep : string) (l : list string) : string :=
  match l with
  | [] => ""
  | [x] => x
  | x :: l' => x ++ sep ++ join sep l'
  end.

(** [s[1:-1]] and [s[:-1]] *)
Definition strip_ends (s : string) : string :=
  substring 1 (String.length s - 2) s.

Definition drop_last (s : string) : string :=
  substring 0 (String.length s - 1) s.

(** [l[:-n]] and [l[-n]] *)
Definition all_but_last {A} (n : nat) (l : list A) : list A :=
  take (length l - n) l.

Definition from_end {A} (n : nat) (l : list A) : outcome A :=
  if (length l <? n)%nat then Raise IndexError
  else match l !! (length l - n)%nat with
       | Some x => Ret x
       | None => Raise IndexError
       end.

(** [item[1]] *)
Definition second (item : list string) : outcome string :=
  match item !! 1%nat with
  | Some x => Ret x
  | None => Raise IndexError
  end.

(** *** Rendering *)

Definition dtype_name (d : dtype) : string :=
  match d with
  | float16 => "float16" | bfloat16 => "bfloat16" | float32 => "float32"
  | float64 => "float64" | int8 => "int8" | int16 => "int16"
  | int32 => "int32" | int64 => "int64" | uint8 => "uint8" | bool_ => "bool"
  end.

Definition all_dtypes : list dtype :=
  [float16; bfloat16; float32; float64; int8; int16; int32; int64; uint8;
   bool_].

Definition type_name (t : pytype) : string :=
  match t with
  | TNoneType => "NoneType" | TBool => "bool" | TInt => "int" | TStr => "str"
  | TTuple => "tuple" | TDtype => "torch.dtype" | TType => "type"
  | TTensor => "torch.Tensor" | TFunction => "function"
  | TGenerator => "generator"
  end.

Definition decimal (z : Z) : string := NilZero.string_of_int (Z.to_int z).
Definition decimal_nat (n : nat) : string := decimal (Z.of_nat n).

(** [repr(v)].  A string is shown between single quotes (it is taken to hold
    no quote or escape); an object without a literal form is shown with its
    identity, as CPython shows the address. *)
Fixpoint py_repr (v : pyval) : string :=
  match v with
  | VNone => "None"
  | VBool true => "True"
  | VBool false => "False"
  | VInt z => decimal z
  | VStr s => "'" ++ s ++ "'"
  | VDtype d => "torch." ++ dtype_name d
  | VType t => "<class '" ++ type_name t ++ "'>"
  | VTuple l =>
      "(" ++ join ", " (map py_repr l)
          ++ (match l with [_] => "," | _ => "" end) ++ ")"
  | VTensor i _ _ => "tensor(" ++ decimal_nat i ++ ")"
  | VCallable i => "<function at " ++ decimal_nat i ++ ">"
  | VGenerator i =>
      "<generator object LibTuner.preload.<locals>.<genexpr> at "
        ++ decimal_nat i ++ ">"
  end.

(** [str(v)] *)
Definition py_str (v : pyval) : string :=
  match v with
  | VStr s => s
  | _ => py_repr v
  end.

(** [config.__str__()] in the layout that [preload] reads back: the
    meta-parameters as [k: v], then [num_warps], [num_ctas], [num_stages]
    and [enable_fp_fusion]. *)
Definition config_str (c : Config) : string :=
  join ", "
    (map (λ kv, kv.1 ++ ": " ++ py_str kv.2) (kwargs c)
     ++ [ "num_warps: " ++ decimal (num_warps c);
          "num_ctas: " ++ decimal (num_ctas c);
          "num_stages: " ++ decimal (num_stages c);
          "enable_fp_fusion: " ++ py_str (enable_fp_fusion c) ]).

(** *** The interpreter services [LibTuner] calls *)

(** [eval], [int] and [getattr(torch, _)]. *)
Record Interp := {
  py_eval : string → outcome pyval;
  py_int : string → outcome Z;
  torch_getattr : string → outcome pyval;
}.

Definition quoted (s : string) : option string :=
  match s with
  | String "'" rest =>
      if (1 <=? String.length rest)%nat
         && String.eqb (substring (String.length rest - 1) 1 rest) "'"
      then Some (drop_last rest)
      else None
  | _ => None
  end.

Definition dtype_named (n : string) : option dtype :=
  List.find (λ d, String.eqb (dtype_name d) n) all_dtypes.

(** The literals that [str] writes into the table: [None], booleans,
    decimal integers, quoted strings and [torch.<dtype>].  On any other
    text the model lets [eval] and [int] raise. *)
Definition literal_eval (s : string) : outcome pyval :=
  if String.eqb s "None" then Ret VNone
  else if String.eqb s "True" then Ret (VBool true)
  else if String.eqb s "False" then Ret (VBool false)
  else match NilZero.int_of_string s with
  | Some d => Ret (VInt (Z.of_int d))
  | None =>
      match quoted s with
      | Some q => Ret (VStr q)
      | None =>
          if String.prefix "torch." s then
            match dtype_named (substring 6 (String.length s - 6) s) with
            | Some d => Ret (VDtype d)
            | None => Raise EvalError
            end
          else Raise EvalError
      end
  end.

Definition literal_int (s : string) : outcome Z :=
  match NilZero.int_of_string s with
  | Some d => Ret (Z.of_int d)
  | None => Raise ValueError
  end.

Definition dtype_attr (n : string) : outcome pyval :=
  match dtype_named n with
  | Some d => Ret (VDtype d)
  | None => Raise (AttributeError n)
  end.

Definition literals : Interp :=
  {| py_eval := literal_eval; py_int := literal_int;
     torch_getattr := dtype_attr |}.

(** *** [getvalue] *)

Definition getvalue (I : Interp) (key : string) : outcome pyval :=
  match py_eval I key with
  | Ret v => Ret v
  | Raise _ =>
      match split "." key !! 1%nat with
      | None => Raise IndexError
      | Some s => torch_getattr I (drop_last s)
      end
  end.

(** *** The SQLite table *)

(** A table with columns [(key TEXT, config TEXT)]: its rows in insertion
    order, and whether its schema puts a uniqueness constraint on [key]. *)
Record table := {
  unique_key : bool;
  rows : list (string * string);
}.

Abbreviation database := (gmap string table).

(** [CREATE TABLE IF NOT EXISTS name (key TEXT, config TEXT)]: the schema
    names no constraint. *)
Definition create_table (name : string) (db : database) : database :=
  match db !! name with
  | Some _ => db
  | None => <[name := {| unique_key := false; rows := [] |}]> db
  end.

(** [SELECT key, config from name] *)
Definition select_all (name : string) (db : database) : list (string * string) :=
  match db !! name with
  | Some t => rows t
  | None => []
  end.

(** [INSERT OR IGNORE INTO name (key, config) VALUES (?, ?)]: the row is
    dropped only when inserting it would violate a constraint. *)
Definition insert_or_ignore_row (row : string * string) (t : table) : table :=
  if unique_key t && existsb (λ r, String.eqb r.1 row.1) (rows t)
  then t
  else {| unique_key := unique_key t; rows := rows t ++ [row] |}.

Definition insert_or_ignore (name : string) (row : string * string)
    (db : database) : database :=
  alter (insert_or_ignore_row row) name db.

(** *** [preload] and [store] *)

(** [self.cache], and the generator objects [preload] has created, each with
    the tokens it would hand to [getvalue] if it were iterated. *)
Record TunerState := {
  cache : pydict Config;
  next_id : nat;
  generators : list (nat * list string);
}.

Definition fresh_tuner : TunerState :=
  {| cache := []; next_id := 0; generators := [] |}.

(** [for k, v in cfg_ls[:-4]: config.kwargs[k] = eval(v)] *)
Fixpoint read_kwargs (I : Interp) (items : list (list string))
    (acc : list (string * pyval)) : outcome (list (string * pyval)) :=
  match items with
  | [] => Ret acc
  | [k; v] :: items' =>
      x ← py_eval I v;
      read_kwargs I items' (kwargs_set k x acc)
  | _ :: _ => Raise ValueError
  end.

(** Lines 66-73: a [triton.Config] read from [config_str]. *)
Definition read_config (I : Interp) (config_str : string) : outcome Config :=
  let cfg_ls := map (split ": ") (split ", " config_str) in
  kw ← read_kwargs I (all_but_last 4 cfg_ls) [];
  nw ← (i ← from_end 4 cfg_ls; s ← second i; py_int I s);
  nc ← (i ← from_end 3 cfg_ls; s ← second i; py_int I s);
  ns ← (i ← from_end 2 cfg_ls; s ← second i; py_int I s);
  fp ← (i ← from_end 1 cfg_ls; s ← second i; py_eval I s);
  Ret {| kwargs := kw; num_warps := nw; num_ctas := nc; num_stages := ns;
         enable_fp_fusion := fp |}.

(** The generator expression of line 64: its iterable is split at once, the
    calls of [getvalue] wait for an iteration that [preload] never makes. *)
Definition new_generator (key_str : string) (s : TunerState)
  : pyval * TunerState :=
  (VGenerator (next_id s),
   {| cache := cache s; next_id := S (next_id s);
      generators := generators s
                    ++ [(next_id s, split ", " (strip_ends key_str))] |}).

(** What iterating generator [g] would yield. *)
Definition iterate (I : Interp) (tokens : list string) : outcome (list pyval) :=
  foldr (λ tok rest, v ← getvalue I tok; vs ← rest; Ret (v :: vs))
        (Ret []) tokens.

Definition cache_set (k : pyval) (c : Config) (s : TunerState) : TunerState :=
  {| cache := set k c (cache s); next_id := next_id s;
     generators := generators s |}.

(** [for row in cursor]: an exception leaves the loop and the function. *)
Fixpoint load_rows (I : Interp) (table_rows : list (string * string))
    (s : TunerState) : outcome unit * TunerState :=
  match table_rows with
  | [] => (Ret tt, s)
  | (key_str, config_str) :: rest =>
      let (key, s1) := new_generator key_str s in
      match read_config I config_str with
      | Raise x => (Raise x, s1)
      | Ret config => load_rows I rest (cache_set key config s1)
      end
  end.

Definition preload (I : Interp) (name : string) (db : database)
    (s : TunerState) : database * (outcome unit * TunerState) :=
  let db1 := create_table name db in
  (db1, load_rows I (select_all name db1) s).

Definition store (name : string) (s : TunerState) (db : database) : database :=
  foldl (λ d kc, insert_or_ignore name (py_str kc.1, config_str kc.2) d)
        (create_table name db) (cache s).

(** The ids of the generator keys in the cache lie below [next_id]. *)
Definition ids_fresh (s : TunerState) : Prop :=
  Forall (λ kc, ∀ i, kc.1 = VGenerator i → (i < next_id s)%nat) (cache s).

(** The number of rows stored under a key text. *)
Definition rows_for (key_text : string) (name : string) (db : database) : nat :=
  length (List.filter (λ r, String.eqb r.1 key_text) (select_all name db)).

(** The table is absent or was created by [LibTuner]. *)
Definition libtuner_table (name : string) (db : database) : Prop :=
  match db !! name with
  | Some t => unique_key t = false
  | None => True
  end.

(** The row [store] writes for a cache item. *)
Definition row_of (kc : pyval * Config) : string * string :=
  (py_str kc.1, config_str kc.2).

End Tuner.

(** ** Notions used to state further properties *)

Module More.
Import Py Exn PyDict Triton Entry Tuner.

(** The default that line 250 would bind to [n]: the one of the first
    compile-time-constant parameter of that name which has a default. *)
Definition declared_default (ps : list KernelParam) (n : string)
  : option pyval :=
  match List.find (λ p, is_constexpr p && String.eqb (name p) n
                        && bool_decide (is_Some (default p))) ps with
  | Some p => default p
  | None => None
  end.

(** [config.kwargs.get(x)] on the insertion-ordered dict: the last item of
    that name. *)
Definition kwargs_get (x : string) (d : list (string * pyval)) : option pyval :=
  match List.find (λ kv, String.eqb kv.1 x) (reverse d) with
  | Some kv => Some kv.2
  | None => None
  end.

(** Some stage of the chain can bind the name [x]: a heuristic of that name,
    or a meta-parameter of that name in a configuration of a tuner. *)
Fixpoint binds (x : string) (f : runtime_fn) : Prop :=
  match f with
  | JITFunction _ _ => False
  | Autotuner _ best f' =>
      (∃ n args kwargs, is_Some (kwargs_get x (Triton.kwargs (best n args kwargs))))
      ∨ binds x f'
  | Heuristics _ values f' => x ∈ values.*1 ∨ binds x f'
  | Wrapper _ f' => binds x f'
  end.

(** The role a positional argument gets from the parameter declared at its
    position; there is none behind the last parameter. *)
Inductive role := Specializing | RuntimeOnly | Constant.

Definition role_of (p : KernelParam) : role :=
  if is_constexpr p then Constant
  else if do_not_specialize p then RuntimeOnly
  else Specializing.

Definition role_at (self : LibEntry) (i : nat) : role :=
  match params self !! i with
  | Some p => role_of p
  | None => Constant
  end.

Definition role_eqb (a b : role) : bool :=
  match a, b with
  | Specializing, Specializing | RuntimeOnly, RuntimeOnly
  | Constant, Constant => true
  | _, _ => false
  end.

(** The positional arguments that have role [r]. *)
Definition with_role (self : LibEntry) (r : role) (args : list pyval)
  : list pyval :=
  (List.filter (λ ia, role_eqb (role_at self ia.1) r) (imap pair args)).*2.

(** [p.num] is the position of [p], as Triton numbers the parameters. *)
Definition numbered (ps : list KernelParam) : Prop :=
  ∀ i p, ps !! i = Some p → num p = i.

(** [LibTuner.__init__]: the [Autotuner] constructor leaves [self.cache]
    empty, then comes [self.preload()]. *)
Definition libtuner_init (I : Interp) (name : string) (db : database)
  : database * (outcome unit * TunerState) :=
  preload I name db fresh_tuner.

(** A process that wraps the tuner in [LibEntry] (whose [__init__] meets the
    [LibTuner] stage and calls [fn.preload()] once more), tunes nothing and
    exits, at which point the finalizer runs [store]. *)
Definition idle_session (I : Interp) (name : string) (db : database)
  : database :=
  let (db1, r1) := libtuner_init I name db in
  let (db2, r2) := preload I name db1 r1.2 in
  store name r2.2 db2.

(** [triton.cdiv(x, y)] *)
Definition cdiv (x y : Z) : Z := (x + y - 1) / y.

(** The [grid] lambda of [addmm] for an [M] x [N] result. *)
Definition addmm_grid (M N : Z) (META : gmap string pyval) : outcome pyval :=
  match META !! "BLOCK_SIZE_M", META !! "BLOCK_SIZE_N" with
  | Some (VInt bm), Some (VInt bn) =>
      Ret (VTuple [VInt (cdiv M bm); VInt (cdiv N bn)])
  | None, _ => Raise (KeyError "BLOCK_SIZE_M")
  | _, None => Raise (KeyError "BLOCK_SIZE_N")
  | _, _ => Raise TypeError
  end.

(** The text [s] has no character [c]. *)
Fixpoint no_char (c : ascii) (s : string) : bool :=
  match s with
  | EmptyString => true
  | String a s' => negb (Ascii.eqb a c) && no_char c s'
  end.

(** A meta-parameter name without a comma or a colon, and a value that
    [str] writes as a literal: [None], a boolean or an integer. *)
Definition plain_name (s : string) : bool :=
  no_char "," s && no_char ":" s.


(** Text that [repr] shows between single quotes unchanged: printable
    ASCII without a single quote (code 39) or a backslash (code 92). *)
Fixpoint printable (s : string) : bool :=
  match s with
  | EmptyString => true
  | String c rest =>
      (32 <=? nat_of_ascii c)%nat && (nat_of_ascii c <? 127)%nat
      && negb (nat_of_ascii c =? 39)%nat && negb (nat_of_ascii c =? 92)%nat
      && printable rest
  end.

(** A key item that [str] writes as one literal token: [None], a boolean,
    an integer, a dtype, or a printable string without a comma (such as the
    dtype names that the tuner appends to its keys). *)
Definition token_value (v : pyval) : bool :=
  match v with
  | VNone | VBool _ | VInt _ | VDtype _ => true
  | VStr s => printable s && no_char "," s
  | _ => false
  end.


End More.

(** ** The kernel of [ops/addmm.py] as a running example *)

Module Addmm.
Import Py Exn PyDict Triton Entry.
#[local] Open Scope string_scope.
#[local] Open Scope Z_scope.

Definition param (n : nat) (nm : string) (constexpr dns : bool) : KernelParam :=
  {| num := n; name := nm; is_constexpr := constexpr;
     do_not_specialize := dns; default := None |}.

(** The signature of [addmm_kernel], with [do_not_specialize=["alpha",
    "beta"]]. *)
Definition params : list KernelParam :=
  [ param 0 "a_ptr" false false; param 1 "b_ptr" false false;
    param 2 "bias_ptr" false false; param 3 "c_ptr" false false;
    param 4 "alpha" false true; param 5 "beta" false true;
    param 6 "M" false false; param 7 "N" false false;
    param 8 "K" false false;
    param 9 "stride_am" false false; param 10 "stride_ak" false false;
    param 11 "stride_bk" false false; param 12 "stride_bn" false false;
    param 13 "stride_cm" false false; param 14 "stride_cn" false false;
    param 15 "BLOCK_SIZE_M" true false; param 16 "BLOCK_SIZE_N" true false;
    param 17 "BLOCK_SIZE_K" true false;
    param 18 "EVEN_M" true false; param 19 "EVEN_N" true false;
    param 20 "EVEN_K" true false ].

Definition arg_names : list string := map name params.

(** [lambda args: args[dim] % args[block] == 0] *)
Definition even (dim block : string) (args : gmap string pyval) : pyval :=
  match args !! dim, args !! block with
  | Some (VInt a), Some (VInt b) => VBool (a mod b =? 0)
  | _, _ => VNone
  end.

Definition heuristics : list (string * (gmap string pyval → pyval)) :=
  [ ("EVEN_M", even "M" "BLOCK_SIZE_M");
    ("EVEN_N", even "N" "BLOCK_SIZE_N");
    ("EVEN_K", even "K" "BLOCK_SIZE_K") ].

(** The first candidate of the [configs] list. *)
Definition config0 : Config :=
  {| kwargs := [("BLOCK_SIZE_M", VInt 128); ("BLOCK_SIZE_N", VInt 128);
                ("BLOCK_SIZE_K", VInt 128)];
     num_warps := 1; num_ctas := 1; num_stages := 4;
     enable_fp_fusion := VBool true |}.

(** The ninth candidate. *)
Definition config8 : Config :=
  {| kwargs := [("BLOCK_SIZE_M", VInt 64); ("BLOCK_SIZE_N", VInt 64);
                ("BLOCK_SIZE_K", VInt 64)];
     num_warps := 1; num_ctas := 1; num_stages := 4;
     enable_fp_fusion := VBool true |}.

(** [@libentry() @triton.autotune(...) @triton.heuristics(...) @triton.jit]:
    a tuner that settles on [config0]. *)
Definition chain : runtime_fn :=
  Autotuner arg_names (λ _ _ _, config0)
    (Heuristics arg_names heuristics (JITFunction arg_names params)).

Definition addmm_kernel : LibEntry := {| fn := chain; device_count := 1 |}.

(** The same kernel registered under a decorator [run] does not know. *)
Definition misregistered : LibEntry :=
  {| fn := Wrapper arg_names chain; device_count := 1 |}.

Definition cdiv (a b : Z) : Z := (a + b - 1) / b.

(** Callable 0 is the [grid] lambda of [addmm]; callable 1 is a lambda that
    returns the empty tuple.  The [n]-th [self.fn.run] returns kernel object
    [n]. *)
Definition world : World :=
  {| fn_run := λ n _ _, n;
     call := λ f meta,
       match f with
       | O =>
           match meta !! "M", meta !! "N",
                 meta !! "BLOCK_SIZE_M", meta !! "BLOCK_SIZE_N" with
           | Some (VInt m), Some (VInt n), Some (VInt bm), Some (VInt bn) =>
               VTuple [VInt (cdiv m bm); VInt (cdiv n bn)]
           | _, _, _, _ => VNone
           end
       | _ => VTuple []
       end |}.

(** [addmm_kernel[grid](mat1, mat2, bias, out, alpha, beta, M, N, K,
    strides...)] for 64 x 64 matrices; [ptr] is the address of [mat1]. *)
Definition args_at (ptr alpha : Z) : list pyval :=
  [ VTensor 1 float16 ptr; VTensor 2 float16 8192; VTensor 3 float16 16384;
    VTensor 4 float16 24576; VInt alpha; VInt 1;
    VInt 64; VInt 64; VInt 64;
    VInt 64; VInt 1; VInt 64; VInt 1; VInt 64; VInt 1 ].

Definition args : list pyval := args_at 4096 1.

Definition kwargs : gmap string pyval := {[ "grid" := VCallable 0 ]}.
Definition kwargs_empty_grid : gmap string pyval := {[ "grid" := VCallable 1 ]}.

(** The state after a first call has compiled the kernel. *)
Definition warm : state := (run addmm_kernel world 0 args kwargs (init addmm_kernel)).2.

(** Two callers with a fixed launch shape whose arguments differ only in the
    runtime-only [alpha], and a schedule in which both miss the cache before
    the second one takes the lock. *)
Definition kwargs_fixed_grid : gmap string pyval :=
  {[ "grid" := VTuple [VInt 1; VInt 1] ]}.

Definition two_calls : list (list pyval * gmap string pyval) :=
  [ (args_at 4096 1, kwargs_fixed_grid); (args_at 4096 5, kwargs_fixed_grid) ].


(** The first caller runs to its end, then the second one. *)
Definition one_after_the_other : list nat :=
  (replicate 7 0%nat ++ replicate 7 1%nat)%list.

(** The problem shape [(M, N, K) = (64, 64, 64)] as the tuner's key, and a
    table that already holds a row for it. *)
Definition shape : pyval := VTuple [VInt 64; VInt 64; VInt 64].

Definition tuned (c : Config) : Tuner.TunerState :=
  {| Tuner.cache := [(shape, c)]; Tuner.next_id := 0;
     Tuner.generators := [] |}.

Definition table_with_config0 : Tuner.database :=
  Tuner.store "addmm_kernel" (tuned config0) ∅.

End Addmm.

(** * Facts *)

(** ** Python equality is an equivalence *)

Module PyFacts.
Import Py.

Lemma py_eqb_tuple l m : py_eqb (VTuple l) (VTuple m) = items_eqb l m.
Proof.
  revert m. induction l as [|x l IH]; intros [|y m]; reflexivity.
Qed.

(** Induction over values that reaches inside tuples. *)
Lemma pyval_rect' (P : pyval → Prop) :
  P VNone → (∀ b, P (VBool b)) → (∀ z, P (VInt z)) → (∀ s, P (VStr s)) →
  (∀ d, P (VDtype d)) → (∀ t, P (VType t)) →
  (∀ l, Forall P l → P (VTuple l)) →
  (∀ i d p, P (VTensor i d p)) → (∀ i, P (VCallable i)) →
  (∀ i, P (VGenerator i)) →
  ∀ v, P v.
Proof.
  intros HN HB HI HS HD HT HTu HTe HC HG.
  fix IH 1. intros [ | b | z | s | d | t | l | i d p | i | i ].
  - exact HN.
  - apply HB.
  - apply HI.
  - apply HS.
  - apply HD.
  - apply HT.
  - apply HTu. induction l as [|x l IHl]; constructor; [apply IH | apply IHl].
  - apply HTe.
  - apply HC.
  - apply HG.
Qed.

Lemma dtype_eqb_eq a b : dtype_eqb a b = true ↔ a = b.
Proof. destruct a, b; simpl; split; (congruence || reflexivity). Qed.

Lemma pytype_eqb_eq a b : pytype_eqb a b = true ↔ a = b.
Proof. destruct a, b; simpl; split; (congruence || reflexivity). Qed.

Lemma py_eqb_refl v : py_eqb v v = true.
Proof.
  induction v as [ | | | | | |l IHl| | | ] using pyval_rect';
    try rewrite py_eqb_tuple; simpl; try lia.
  - apply String.eqb_refl.
  - by apply dtype_eqb_eq.
  - by apply pytype_eqb_eq.
  - induction IHl as [|x l Hx _ IH]; simpl; [done|]. by rewrite Hx, IH.
  - apply Nat.eqb_refl.
  - apply Nat.eqb_refl.
  - apply Nat.eqb_refl.
Qed.

Lemma py_eqb_sym a b : py_eqb a b = py_eqb b a.
Proof.
  revert b.
  induction a as [ | | | |d|t|l IHl| | | ] using pyval_rect';
    intros [ | | | |e|u|m| | | ]; try rewrite !py_eqb_tuple;
    simpl; try reflexivity; try apply Z.eqb_sym; try apply Nat.eqb_sym.
  - apply String.eqb_sym.
  - destruct d, e; reflexivity.
  - destruct t, u; reflexivity.
  - revert m.
    induction IHl as [|x l Hx _ IH]; intros [|y m]; simpl; try reflexivity.
    by rewrite Hx, IH.
Qed.

Lemma py_eqb_trans a b c :
  py_eqb a b = true → py_eqb b c = true → py_eqb a c = true.
Proof.
  revert b c.
  induction a as [ | | | | | |l IHl| | | ] using pyval_rect'; intros u w;
    destruct u as [ | | | | | |m| | | ]; try rewrite !py_eqb_tuple;
    simpl; try discriminate;
    destruct w as [ | | | | | |n| | | ]; try rewrite !py_eqb_tuple;
    simpl; try discriminate; try (intros; lia).
  - rewrite !String.eqb_eq. congruence.
  - rewrite !dtype_eqb_eq. congruence.
  - rewrite !pytype_eqb_eq. congruence.
  - revert m n.
    induction IHl as [|x l Hx _ IH]; intros [|y m] [|z n]; simpl;
      try discriminate; try reflexivity.
    rewrite !andb_true_iff. intros [? ?] [? ?]. split; eauto.
  - rewrite !Nat.eqb_eq. congruence.
  - rewrite !Nat.eqb_eq. congruence.
  - rewrite !Nat.eqb_eq. congruence.
Qed.

End PyFacts.

(** ** Dictionary lookups *)

Module PyDictFacts.
Import Py PyFacts PyDict.

Section Ops.
Context {V : Type}.
Implicit Types (d : pydict V) (v : V).

Lemma get_set_eq k v d : get k (set k v d) = Some v.
Proof.
  induction d as [|[k' v'] d IH]; simpl.
  - by rewrite py_eqb_refl.
  - destruct (py_eqb k' k) eqn:E; simpl; rewrite E; [done | apply IH].
Qed.

Lemma get_proper k k' d : py_eqb k k' = true → get k d = get k' d.
Proof.
  intros E. induction d as [|[k0 v0] d IH]; simpl; [done|].
  destruct (py_eqb k0 k) eqn:E1, (py_eqb k0 k') eqn:E2; try done.
  - rewrite (py_eqb_trans _ _ _ E1 E) in E2. done.
  - rewrite py_eqb_sym in E.
    rewrite (py_eqb_trans _ _ _ E2 E) in E1. done.
Qed.

Lemma get_set_ne k k' v d :
  py_eqb k k' = false → get k' (set k v d) = get k' d.
Proof.
  intros E. induction d as [|[k0 v0] d IH]; simpl.
  - by rewrite E.
  - destruct (py_eqb k0 k) eqn:E1; simpl.
    + destruct (py_eqb k0 k') eqn:E2; [|done].
      rewrite py_eqb_sym in E1.
      rewrite (py_eqb_trans _ _ _ E1 E2) in E. done.
    + destruct (py_eqb k0 k'); [done | apply IH].
Qed.

Lemma set_absent k v d : get k d = None → set k v d = d ++ [(k, v)].
Proof.
  induction d as [|[k0 v0] d IH]; simpl; [done|].
  destruct (py_eqb k0 k); [done|]. intros H. by rewrite IH.
Qed.
End Ops.

End PyDictFacts.

(** ** The cache key *)

Module KeyFacts.
Import Py PyFacts Exn PyDict Triton Entry.

Lemma items_eqb_differ (l m : list pyval) i x y :
  l !! i = Some x → m !! i = Some y → py_eqb x y = false →
  items_eqb l m = false.
Proof.
  revert m i. induction l as [|a l IH]; intros [|b m] [|i]; simpl;
    try discriminate.
  - intros [= ->] [= ->] ->. reflexivity.
  - intros Hl Hm Hxy. rewrite (IH m i Hl Hm Hxy). apply andb_false_r.
Qed.

Lemma key_spec_lookup spec dns const i arg :
  spec !! i = Some arg →
  key_items (key spec dns const) !! i = Some (spec_key_item arg).
Proof.
  intros H. simpl. apply lookup_app_l_Some.
  by rewrite list_lookup_fmap, H.
Qed.

Lemma key_dns_lookup spec dns const i arg :
  dns !! i = Some arg →
  key_items (key spec dns const) !! (length spec + i)%nat
  = Some (dns_key_item arg).
Proof.
  intros H. simpl. rewrite lookup_app_r; rewrite length_map; [|lia].
  replace (length spec + i - length spec)%nat with i by lia.
  apply lookup_app_l_Some. by rewrite list_lookup_fmap, H.
Qed.

(** C6: two calls whose specializing argument at the same position is a
    device buffer of the same dtype, one with a data pointer divisible by
    [divisibility = 16] and one not, get keys that Python's [==] tells
    apart, whatever the other arguments are. *)
Theorem key_alignment_sensitive
    (spec1 spec2 dns1 dns2 const1 const2 : list pyval)
    (i id1 id2 : nat) (dt : dtype) (p1 p2 : Z) :
  spec1 !! i = Some (VTensor id1 dt p1) →
  spec2 !! i = Some (VTensor id2 dt p2) →
  (p1 mod 16 =? 0) ≠ (p2 mod 16 =? 0) →
  divisibility = 16 ∧
  py_eqb (key spec1 dns1 const1) (key spec2 dns2 const2) = false.
Proof.
  intros H1 H2 Hne. split; [reflexivity|].
  unfold key at 1 2. rewrite py_eqb_tuple.
  eapply items_eqb_differ.
  - apply (key_spec_lookup spec1 dns1 const1 _ _ H1).
  - apply (key_spec_lookup spec2 dns2 const2 _ _ H2).
  - simpl. unfold divisibility.
    destruct (p1 mod 16 =? 0), (p2 mod 16 =? 0); try done;
      destruct dt; reflexivity.
Qed.

Lemma key_alignment_sensitive_witness :
  divisibility = 16 ∧
  py_eqb (key [VTensor 1 float16 4096] [VInt 7] [VInt 128])
         (key [VTensor 2 float16 4104] [VInt 7] [VInt 128]) = false.
Proof.
  apply (key_alignment_sensitive _ _ _ _ _ _ 0%nat 1%nat 2%nat float16 4096 4104);
    [reflexivity | reflexivity | vm_compute; discriminate].
Defined.

(** C9: the key item of a runtime-only argument.  For an integer ([bool]
    included, as [isinstance(arg, int)] has it) it is exactly one of the tags
    "i32", "u64", "i64": "i32" iff the value is in [-2^31, 2^31 - 1], "u64"
    iff it is in [2^63, 2^64 - 1], "i64" for every other integer.  A buffer
    gives its dtype and any other object its runtime type. *)
Theorem key_width_class (spec dns const : list pyval) (i : nat) (arg : pyval) :
  dns !! i = Some arg →
  ∃ tag, key_items (key spec dns const) !! (length spec + i)%nat = Some tag ∧
    match arg with
    | VTensor _ dt _ => tag = VDtype dt
    | _ =>
        match int_of arg with
        | Some z =>
            (tag = VStr "i32" ↔ in_i32 z) ∧
            (tag = VStr "u64" ↔ in_u64 z) ∧
            (tag = VStr "i64" ↔ ¬ in_i32 z ∧ ¬ in_u64 z)
        | None => tag = VType (type_of arg)
        end
    end.
Proof.
  intros H. exists (dns_key_item arg). split; [by apply key_dns_lookup|].
  assert (Hint : ∀ z, int_of arg = Some z → has_data_ptr arg = false →
    let tag := dns_key_item arg in
    (tag = VStr "i32" ↔ in_i32 z) ∧ (tag = VStr "u64" ↔ in_u64 z) ∧
    (tag = VStr "i64" ↔ ¬ in_i32 z ∧ ¬ in_u64 z)).
  { intros z Hz Hp. unfold in_i32, in_u64.
    assert (dns_key_item arg =
      if (- 2 ^ 31 <=? z) && (z <=? 2 ^ 31 - 1) then VStr "i32"
      else if (2 ^ 63 <=? z) && (z <=? 2 ^ 64 - 1) then VStr "u64"
      else VStr "i64") as ->.
    { destruct arg; try discriminate; simpl in *; by injection Hz as <-. }
    destruct (- 2 ^ 31 <=? z) eqn:E1, (z <=? 2 ^ 31 - 1) eqn:E2,
      (2 ^ 63 <=? z) eqn:E3, (z <=? 2 ^ 64 - 1) eqn:E4; simpl;
      repeat split; intros; try discriminate; try lia;
      try (exfalso; lia); try reflexivity. }
  destruct arg; simpl; try reflexivity;
    try (apply (Hint _ eq_refl eq_refl)).
Qed.

Lemma key_width_class_witness :
  ∃ tag, key_items (key [VTensor 1 float16 0] [VInt (2 ^ 63)] [])
           !! (1 + 0)%nat = Some tag ∧
    (tag = VStr "i32" ↔ in_i32 (2 ^ 63)) ∧
    (tag = VStr "u64" ↔ in_u64 (2 ^ 63)) ∧
    (tag = VStr "i64" ↔ ¬ in_i32 (2 ^ 63) ∧ ¬ in_u64 (2 ^ 63)).
Proof.
  exact (key_width_class [VTensor 1 float16 0] [VInt (2 ^ 63)] [] 0
           (VInt (2 ^ 63)) eq_refl).
Defined.

End KeyFacts.

(** ** [run]: the compile path and the direct launch *)

Module RunFacts.
Import Py PyFacts Exn PyDict PyDictFacts Triton Entry.

Lemma collect_recognized n args kwargs f c :
  recognized f = true →
  ∃ c', collect_constexprs n args kwargs f c = Ret c'.
Proof.
  revert c. induction f as [a ps|a best f IH|a values f IH|a f IH];
    intros c Hf; simpl in *; eauto. discriminate.
Qed.

Lemma collect_unrecognized n args kwargs f c :
  recognized f = false →
  collect_constexprs n args kwargs f c = Raise invalid_runtime_function.
Proof.
  revert c. induction f as [a ps|a best f IH|a values f IH|a f IH];
    intros c Hf; simpl in *; eauto. discriminate.
Qed.

Lemma gather_recognized self n args kwargs kernel :
  recognized (fn self) = true →
  ∃ c, gather self n args kwargs kernel = Ret (Entry kernel c).
Proof.
  intros Hf. unfold gather.
  destruct (collect_recognized n args kwargs (fn self) ∅ Hf) as [c ->].
  simpl. eauto.
Qed.

Lemma gather_unrecognized self n args kwargs kernel :
  recognized (fn self) = false →
  gather self n args kwargs kernel = Raise invalid_runtime_function.
Proof.
  intros Hf. unfold gather. by rewrite collect_unrecognized.
Qed.

Lemma gather_kernel self n args kwargs k e :
  gather self n args kwargs k = Ret e → kernel e = k.
Proof.
  unfold gather. destruct (collect_constexprs _ _ _ _ _); simpl; [|done].
  by intros [= <-].
Qed.

Lemma gather_raises self n args kwargs kernel x :
  gather self n args kwargs kernel = Raise x →
  x = invalid_runtime_function ∧ recognized (fn self) = false.
Proof.
  intros H. destruct (recognized (fn self)) eqn:Hf.
  - destruct (gather_recognized self n args kwargs kernel Hf) as [c Hc].
    congruence.
  - rewrite gather_unrecognized in H by done. by injection H as <-.
Qed.

Lemma passes_log_fn_run a k st : passes (log (EvFnRun a k) st) = S (passes st).
Proof.
  unfold passes, log. simpl. rewrite List.filter_app, length_app. simpl. lia.
Qed.

Lemma passes_log_launch kn g a st :
  passes (log (EvLaunch kn g a) st) = passes st.
Proof.
  unfold passes, log. simpl. rewrite List.filter_app, length_app. simpl. lia.
Qed.

Lemma passes_log_grid self grid args kwargs c st :
  passes (log_grid self grid args kwargs c st) = passes st.
Proof.
  unfold log_grid. destruct grid; try reflexivity.
  unfold passes, log. simpl. rewrite List.filter_app, length_app. simpl. lia.
Qed.

Lemma cache_log_grid self grid args kwargs c st :
  kernel_cache (log_grid self grid args kwargs c st) = kernel_cache st.
Proof. by destruct grid. Qed.

Lemma direct_log_fn_run a k st :
  direct_events (log (EvFnRun a k) st) = direct_events st.
Proof.
  unfold direct_events, log. simpl. rewrite List.filter_app. simpl.
  apply app_nil_r.
Qed.

Lemma cached_publish device k e st cache :
  kernel_cache st !! device = Some cache →
  cached device k (publish device k e st) = Some e.
Proof.
  intros H. unfold cached, publish. simpl.
  rewrite list_lookup_alter_eq, H. simpl. apply get_set_eq.
Qed.

Lemma cached_publish_ne device k k' e st :
  py_eqb k k' = false →
  cached device k' (publish device k e st) = cached device k' st.
Proof.
  intros H. unfold cached, publish. simpl.
  rewrite list_lookup_alter_eq. destruct (kernel_cache st !! device); simpl; [|done].
  by apply get_set_ne.
Qed.

Lemma run_miss self w device args kwargs st grid cache :
  kwargs !! "grid" = Some grid →
  kernel_cache st !! device = Some cache →
  get (entry_key self args kwargs) cache = None →
  run self w device args kwargs st =
  match gather self (passes st) args kwargs
          (fn_run w (passes st) args kwargs) with
  | Raise e => (Raise e, log (EvFnRun args kwargs) st)
  | Ret entry =>
      (Ret entry,
       publish device (entry_key self args kwargs) entry
         (log (EvFnRun args kwargs) st))
  end.
Proof.
  intros Hg Hc Hmiss. unfold run, entry_key in *. rewrite Hg, Hc.
  cbv zeta. by rewrite Hmiss.
Qed.

Lemma run_hit self w device args kwargs st grid cache e :
  kwargs !! "grid" = Some grid →
  kernel_cache st !! device = Some cache →
  get (entry_key self args kwargs) cache = Some e →
  run self w device args kwargs st =
  let st1 := log_grid self grid args kwargs (constexprs e) st in
  match resolve_grid self w grid args kwargs (constexprs e) with
  | Raise x => (Raise x, st1)
  | Ret g3 =>
      (Ret e,
       log (EvLaunch (kernel e) g3 (k_args (collect_args self args kwargs))) st1)
  end.
Proof.
  intros Hg Hc Hhit. unfold run, entry_key in *. rewrite Hg, Hc.
  cbv zeta. rewrite Hhit. by destruct e.
Qed.

(** C8: on a cache miss, a stage chain that holds a wrapper which is neither
    an [Autotuner] nor a [Heuristics] makes [run] raise
    RuntimeError("Invalid Runtime Function") right after [self.fn.run]; no
    entry is stored and nothing is launched. *)
Theorem unrecognized_stage_raises (self : LibEntry) (w : World) (device : nat)
    (args : list pyval) (kwargs : gmap string pyval) (st : state)
    (grid : pyval) :
  kwargs !! "grid" = Some grid →
  (device < length (kernel_cache st))%nat →
  cached device (entry_key self args kwargs) st = None →
  recognized (fn self) = false →
  run self w device args kwargs st
  = (Raise (RuntimeError "Invalid Runtime Function"),
     log (EvFnRun args kwargs) st).
Proof.
  intros Hg Hdev Hmiss Hf.
  destruct (lookup_lt_is_Some_2 _ _ Hdev) as [cache Hc].
  unfold cached in Hmiss. rewrite Hc in Hmiss. simpl in Hmiss.
  rewrite (run_miss _ _ _ _ _ _ _ _ Hg Hc Hmiss).
  by rewrite gather_unrecognized.
Qed.

Lemma unrecognized_stage_raises_witness :
  run Addmm.misregistered Addmm.world 0 Addmm.args Addmm.kwargs
      (init Addmm.misregistered)
  = (Raise (RuntimeError "Invalid Runtime Function"),
     log (EvFnRun Addmm.args Addmm.kwargs) (init Addmm.misregistered)).
Proof.
  apply (unrecognized_stage_raises Addmm.misregistered Addmm.world 0
           Addmm.args Addmm.kwargs (init Addmm.misregistered) (VCallable 0));
    [reflexivity | simpl; lia | reflexivity | reflexivity].
Defined.

(** *** The arguments handed to the kernel *)

Lemma add_spec_ok v g : kernel_args_ok g → kernel_args_ok (add_spec v g).
Proof.
  unfold kernel_args_ok. simpl. intros ->.
  rewrite <- !(assoc_L (++)). f_equiv. apply Permutation_app_comm.
Qed.

Lemma add_dns_ok v g : kernel_args_ok g → kernel_args_ok (add_dns v g).
Proof. unfold kernel_args_ok. simpl. intros ->. by rewrite (assoc_L (++)). Qed.

Lemma add_const_ok v g : kernel_args_ok g → kernel_args_ok (add_const v g).
Proof. done. Qed.

Lemma foldl_invariant {A B} (P : A → Prop) (f : A → B → A) l a :
  (∀ a b, P a → P (f a b)) → P a → P (foldl f a l).
Proof. intros Hf. revert a. induction l; simpl; auto. Qed.

Lemma collect_args_ok self args kwargs :
  kernel_args_ok (collect_args self args kwargs).
Proof.
  unfold collect_args, collect_rest, collect_positional.
  apply foldl_invariant.
  - intros g p Hg. destruct (kwargs !! name p), (default p);
      repeat case_match; auto using add_spec_ok, add_dns_ok, add_const_ok.
  - apply foldl_invariant; [|unfold kernel_args_ok; simpl; reflexivity].
    intros g ia Hg.
    repeat case_match; auto using add_spec_ok, add_dns_ok, add_const_ok.
Qed.

(** C10: on a cache miss [run] calls [self.fn.run], stores the fresh
    [(kernel, constexprs)] and returns it at once: the grid is not called and
    nothing is launched (when the walk meets an unknown stage it raises
    instead, and stores nothing).  The grid call, the padding to three
    dimensions and the launch of the cached kernel, on the specializing and
    runtime-only arguments alone, happen on a cache hit. *)
Theorem miss_returns_before_launch (self : LibEntry) (w : World)
    (device : nat) (args : list pyval) (kwargs : gmap string pyval)
    (st : state) (grid : pyval) (cache : pydict CacheEntry) :
  kwargs !! "grid" = Some grid →
  kernel_cache st !! device = Some cache →
  let k := entry_key self args kwargs in
  let g := collect_args self args kwargs in
  let r := run self w device args kwargs st in
  match get k cache with
  | None =>
      trace r.2 = trace st ++ [EvFnRun args kwargs] ∧
      direct_events r.2 = direct_events st ∧
      match r.1 with
      | Ret e =>
          recognized (fn self) = true ∧
          kernel e = fn_run w (passes st) args kwargs ∧
          cached device k r.2 = Some e
      | Raise x =>
          recognized (fn self) = false ∧
          kernel_cache r.2 = kernel_cache st
      end
  | Some e =>
      k_args g ≡ₚ spec_args g ++ dns_args g ∧
      kernel_cache r.2 = kernel_cache st ∧
      passes r.2 = passes st ∧
      match resolve_grid self w grid args kwargs (constexprs e) with
      | Ret g3 =>
          r.1 = Ret e ∧
          (∃ g0, g3 = take 3 (g0 ++ [VInt 1; VInt 1])) ∧
          trace r.2 = trace (log_grid self grid args kwargs (constexprs e) st)
                      ++ [EvLaunch (kernel e) g3 (k_args g)]
      | Raise x => r.1 = Raise x
      end
  end.
Proof.
  intros Hg Hc k g r. subst k g r.
  destruct (get _ cache) as [e|] eqn:Hk.
  - rewrite (run_hit _ _ _ _ _ _ _ _ _ Hg Hc Hk). cbv zeta.
    split; [apply collect_args_ok|].
    destruct (resolve_grid _ _ _ _ _ _) as [g3|x] eqn:Hr; simpl.
    + rewrite passes_log_launch, passes_log_grid, cache_log_grid.
      split; [done|]. split; [done|]. split; [done|]. split; [|done].
      unfold resolve_grid in Hr.
      repeat case_match; try discriminate; injection Hr as <-; eauto.
    + by rewrite passes_log_grid, cache_log_grid.
  - rewrite (run_miss _ _ _ _ _ _ _ _ Hg Hc Hk).
    destruct (gather _ _ _ _ _) as [e|x] eqn:Hgath; simpl.
    + repeat split; try done.
      * apply direct_log_fn_run.
      * destruct (recognized (fn self)) eqn:Hf; [done|].
        rewrite gather_unrecognized in Hgath by done. done.
      * by apply gather_kernel in Hgath.
      * eapply cached_publish. done.
    + repeat split; try done.
      * apply direct_log_fn_run.
      * by apply gather_raises in Hgath as [_ ?].
Qed.

Lemma miss_returns_before_launch_witness :
  let k := entry_key Addmm.addmm_kernel Addmm.args Addmm.kwargs in
  let r := run Addmm.addmm_kernel Addmm.world 0 Addmm.args Addmm.kwargs
               (init Addmm.addmm_kernel) in
  trace r.2 = [EvFnRun Addmm.args Addmm.kwargs] ∧
  direct_events r.2 = [] ∧
  match r.1 with
  | Ret e =>
      recognized Addmm.chain = true ∧ kernel e = 0%nat ∧
      cached 0 k r.2 = Some e
  | Raise x =>
      recognized Addmm.chain = false ∧
      kernel_cache r.2 = kernel_cache (init Addmm.addmm_kernel)
  end.
Proof.
  exact (miss_returns_before_launch Addmm.addmm_kernel Addmm.world 0
           Addmm.args Addmm.kwargs (init Addmm.addmm_kernel) (VCallable 0) []
           eq_refl eq_refl).
Defined.

(** *** The launch shape *)

Lemma merged_lookup names args kwargs c n :
  merged names args kwargs c !! n =
  match c !! n with
  | Some v => Some v
  | None =>
      match kwargs !! n with
      | Some v => Some v
      | None => dict_zip names args !! n
      end
  end.
Proof.
  unfold merged. rewrite !lookup_union.
  destruct (c !! n), (kwargs !! n), (dict_zip names args !! n); done.
Qed.

Lemma pad_lookup (g : list pyval) i :
  g ≠ [] → (i < 3)%nat →
  take 3 (g ++ [VInt 1; VInt 1]) !! i
  = Some (match g !! i with Some d => d | None => VInt 1 end).
Proof.
  intros Hg Hi. rewrite lookup_take_lt by done.
  destruct (g !! i) as [d|] eqn:Hd.
  - by apply lookup_app_l_Some.
  - apply lookup_ge_None in Hd. rewrite lookup_app_r by done.
    destruct g as [|a g]; [done|].
    assert (Hj : (i - length (a :: g) < 2)%nat)
      by (change (length (a :: g)) with (S (length g)) in *; lia).
    destruct (i - length (a :: g))%nat as [|[|j]]; [done | done | lia].
Qed.

Lemma pad_length (g : list pyval) :
  g ≠ [] → length (take 3 (g ++ [VInt 1; VInt 1])) = 3%nat.
Proof.
  intros Hg. destruct g; [done|].
  rewrite length_take, length_app. cbn [length]. lia.
Qed.

(** C7, amended: on a cache hit with a callable [grid], [run] calls it on
    [{**dict(zip(arg_names, args)), **kwargs, **constexprs}], where a name
    bound in [constexprs] has that value, else the one of [kwargs], else the
    positional one.  The tuple it returns gets [(1, 1)] appended and is cut
    to its first three items: when it has at least one dimension the launch
    shape has rank 3, its missing trailing dimensions being 1. *)
Theorem callable_grid_launch (self : LibEntry) (w : World) (device : nat)
    (args : list pyval) (kwargs : gmap string pyval) (st : state)
    (f : nat) (cache : pydict CacheEntry) (e : CacheEntry) (g : list pyval) :
  kwargs !! "grid" = Some (VCallable f) →
  kernel_cache st !! device = Some cache →
  get (entry_key self args kwargs) cache = Some e →
  call w f (merged (arg_names self) args kwargs (constexprs e)) = VTuple g →
  g ≠ [] →
  let meta := merged (arg_names self) args kwargs (constexprs e) in
  (∀ n, meta !! n =
        match constexprs e !! n with
        | Some v => Some v
        | None =>
            match kwargs !! n with
            | Some v => Some v
            | None => dict_zip (arg_names self) args !! n
            end
        end) ∧
  ∃ g3,
    run self w device args kwargs st
    = (Ret e,
       log (EvLaunch (kernel e) g3 (k_args (collect_args self args kwargs)))
           (log (EvGrid f meta) st)) ∧
    length g3 = 3%nat ∧
    ∀ i, (i < 3)%nat →
         g3 !! i = Some (match g !! i with Some d => d | None => VInt 1 end).
Proof.
  intros Hg Hc Hk Hcall Hne meta. split; [intros n; apply merged_lookup|].
  exists (take 3 (g ++ [VInt 1; VInt 1])). split; [|split].
  - rewrite (run_hit _ _ _ _ _ _ _ _ _ Hg Hc Hk). cbv zeta.
    unfold resolve_grid. rewrite Hcall. reflexivity.
  - by apply pad_length.
  - intros i Hi. by apply pad_lookup.
Qed.

Lemma callable_grid_launch_witness :
  ∃ e, cached 0 (entry_key Addmm.addmm_kernel Addmm.args Addmm.kwargs)
         Addmm.warm = Some e ∧
  ∃ g3,
    (run Addmm.addmm_kernel Addmm.world 0 Addmm.args Addmm.kwargs
         Addmm.warm).1 = Ret e ∧
    direct_events (run Addmm.addmm_kernel Addmm.world 0 Addmm.args
                       Addmm.kwargs Addmm.warm).2
    = [EvGrid 0 (merged Addmm.arg_names Addmm.args Addmm.kwargs (constexprs e));
       EvLaunch (kernel e) g3
         (k_args (collect_args Addmm.addmm_kernel Addmm.args Addmm.kwargs))] ∧
    g3 = [VInt 1; VInt 1; VInt 1].
Proof.
  destruct (cached 0 (entry_key Addmm.addmm_kernel Addmm.args Addmm.kwargs)
              Addmm.warm) as [e|] eqn:He; [|vm_compute in He; discriminate].
  exists e. split; [reflexivity|].
  destruct (kernel_cache Addmm.warm !! 0%nat) as [cache|] eqn:Hc;
    [|vm_compute in Hc; discriminate].
  unfold cached in He. rewrite Hc in He. simpl in He.
  assert (Hcall : call Addmm.world 0
            (merged (arg_names Addmm.addmm_kernel) Addmm.args Addmm.kwargs
               (constexprs e)) = VTuple [VInt 1; VInt 1]).
  { vm_compute in Hc. injection Hc as <-. vm_compute in He.
    injection He as <-. vm_compute. reflexivity. }
  destruct (callable_grid_launch Addmm.addmm_kernel Addmm.world 0 Addmm.args
              Addmm.kwargs Addmm.warm 0 cache e [VInt 1; VInt 1]
              eq_refl Hc He Hcall ltac:(discriminate))
    as [_ (g3 & Hrun & Hlen & Hpad)].
  exists g3. rewrite Hrun. split; [reflexivity|]. split.
  - unfold direct_events, log. simpl. rewrite !List.filter_app. simpl.
    replace (List.filter is_direct (trace Addmm.warm)) with (@nil event)
      by (vm_compute; reflexivity).
    reflexivity.
  - clear -Hlen Hpad.
    destruct g3 as [|a [|b [|c [|d g3]]]]; try discriminate Hlen.
    pose proof (Hpad 0%nat ltac:(lia)) as H0.
    pose proof (Hpad 1%nat ltac:(lia)) as H1.
    pose proof (Hpad 2%nat ltac:(lia)) as H2.
    simpl in *. congruence.
Defined.

(** C7 as stated fails on a grid callable that returns the empty tuple:
    the launch shape is [(1, 1)], of rank 2. *)
Lemma grid_rank_counterexample :
  direct_events (run Addmm.addmm_kernel Addmm.world 0 Addmm.args
                     Addmm.kwargs_empty_grid Addmm.warm).2
  = [EvGrid 1 (merged Addmm.arg_names Addmm.args Addmm.kwargs_empty_grid
                 (spread (kwargs Addmm.config0)
                    {[ "num_warps" := VInt 1; "num_stages" := VInt 4;
                       "EVEN_M" := VBool false; "EVEN_N" := VBool false;
                       "EVEN_K" := VBool false ]}));
     EvLaunch 0 [VInt 1; VInt 1]
       (k_args (collect_args Addmm.addmm_kernel Addmm.args
                  Addmm.kwargs_empty_grid))] ∧
  length [VInt 1; VInt 1] ≠ 3%nat.
Proof. split; [vm_compute; reflexivity | discriminate]. Qed.

(** *** Repeated calls *)

Lemma passes_publish device k e st : passes (publish device k e st) = passes st.
Proof. reflexivity. Qed.

Lemma run_passes_le self w device args kwargs st :
  (passes (run self w device args kwargs st).2 ≤ passes st + 1)%nat.
Proof.
  destruct (kwargs !! "grid") as [grid|] eqn:Hg;
    [|unfold run; rewrite Hg; simpl; lia].
  destruct (kernel_cache st !! device) as [cache|] eqn:Hc;
    [|unfold run; rewrite Hg, Hc; simpl; lia].
  destruct (get (entry_key self args kwargs) cache) as [e'|] eqn:Hk.
  - rewrite (run_hit _ _ _ _ _ _ _ _ _ Hg Hc Hk). cbv zeta.
    destruct (resolve_grid _ _ _ _ _ _); simpl;
      rewrite ?passes_log_launch, ?passes_log_grid; lia.
  - rewrite (run_miss _ _ _ _ _ _ _ _ Hg Hc Hk).
    destruct (gather _ _ _ _ _); simpl;
      rewrite ?passes_publish, passes_log_fn_run; lia.
Qed.

Lemma run_returns_cached self w device args kwargs st e :
  (run self w device args kwargs st).1 = Ret e →
  cached device (entry_key self args kwargs)
         (run self w device args kwargs st).2 = Some e.
Proof.
  destruct (kwargs !! "grid") as [grid|] eqn:Hg;
    [|unfold run; rewrite Hg; discriminate].
  destruct (kernel_cache st !! device) as [cache|] eqn:Hc;
    [|unfold run; rewrite Hg, Hc; discriminate].
  destruct (get (entry_key self args kwargs) cache) as [e'|] eqn:Hk.
  - rewrite (run_hit _ _ _ _ _ _ _ _ _ Hg Hc Hk). cbv zeta.
    destruct (resolve_grid _ _ _ _ _ _); simpl; [|discriminate].
    intros [= <-]. unfold cached. simpl. rewrite cache_log_grid, Hc. done.
  - rewrite (run_miss _ _ _ _ _ _ _ _ Hg Hc Hk).
    destruct (gather _ _ _ _ _); simpl; [|discriminate].
    intros [= <-]. eapply cached_publish. done.
Qed.

(** A call whose key is already stored only reads the cache. *)
Lemma run_on_cached self w device args kwargs st k e :
  cached device k st = Some e →
  py_eqb (entry_key self args kwargs) k = true →
  let r := run self w device args kwargs st in
  passes r.2 = passes st ∧ kernel_cache r.2 = kernel_cache st ∧
  (∀ e', r.1 = Ret e' → e' = e).
Proof.
  intros Hk Heq r. subst r. unfold cached in Hk.
  destruct (kernel_cache st !! device) as [cache|] eqn:Hc; [|done].
  simpl in Hk. rewrite <- (get_proper _ _ _ Heq) in Hk.
  destruct (kwargs !! "grid") as [grid|] eqn:Hg;
    [|unfold run; rewrite Hg; done].
  rewrite (run_hit _ _ _ _ _ _ _ _ _ Hg Hc Hk). cbv zeta.
  destruct (resolve_grid _ _ _ _ _ _); simpl;
    rewrite ?passes_log_launch, ?passes_log_grid, ?cache_log_grid;
    repeat split; try done. by intros e' [= <-].
Qed.

Lemma run_seq_on_cached self w device calls st k e :
  cached device k st = Some e →
  Forall (λ c, py_eqb (entry_key self c.1 c.2) k = true) calls →
  ∀ i o sti, run_seq self w device calls st !! i = Some (o, sti) →
    passes sti = passes st ∧ cached device k sti = Some e ∧
    (∀ e', o = Ret e' → e' = e).
Proof.
  intros Hk Hall. revert st Hk.
  induction Hall as [|c calls Hc _ IH]; intros st Hk i o sti; [done|].
  destruct (run_on_cached self w device c.1 c.2 st k e Hk Hc)
    as (Hp & Hkc & Hret).
  simpl. destruct i as [|i]; simpl.
  - intros [= Hr]. rewrite Hr in *. simpl in *.
    split; [done|]. split; [|done]. unfold cached in *. by rewrite Hkc.
  - destruct (run self w device c.1 c.2 st).1 eqn:Ho; [|done].
    intros Hi. apply IH in Hi; [|unfold cached in *; by rewrite Hkc].
    destruct Hi as (? & ? & ?). split; [congruence|done].
Qed.

(** C2: in a program that calls [run] several times on one device with
    arguments whose keys are equal, at most the first call runs
    [self.fn.run] and the stage walk.  Every later call leaves the number of
    compile passes where the first call left it, finds the entry the first
    call returned still stored under the key, and returns that very entry. *)
Theorem equal_keys_compile_once (self : LibEntry) (w : World) (device : nat)
    (c1 : list pyval * gmap string pyval)
    (rest : list (list pyval * gmap string pyval)) (st : state)
    (i : nat) (o : outcome CacheEntry) (sti : state) :
  Forall (λ c, py_eqb (entry_key self c.1 c.2) (entry_key self c1.1 c1.2)
               = true) rest →
  run_seq self w device (c1 :: rest) st !! S i = Some (o, sti) →
  let k := entry_key self c1.1 c1.2 in
  let r1 := run self w device c1.1 c1.2 st in
  (passes r1.2 ≤ passes st + 1)%nat ∧
  passes sti = passes r1.2 ∧
  ∃ e, r1.1 = Ret e ∧ cached device k r1.2 = Some e ∧
       cached device k sti = Some e ∧ (∀ e', o = Ret e' → e' = e).
Proof.
  intros Hall Hi k r1. subst k r1. split; [apply run_passes_le|].
  simpl in Hi.
  destruct (run self w device c1.1 c1.2 st).1 as [e|x] eqn:Ho; [|done].
  pose proof (run_returns_cached _ _ _ _ _ _ _ Ho) as Hk.
  destruct (run_seq_on_cached _ _ _ _ _ _ _ Hk Hall _ _ _ Hi)
    as (Hp & Hk' & Hret).
  split; [done|]. exists e. done.
Qed.

Lemma equal_keys_compile_once_witness :
  let st := init Addmm.addmm_kernel in
  let c1 := (Addmm.args_at 4096 1, Addmm.kwargs) in
  let c2 := (Addmm.args_at 4096 5, Addmm.kwargs) in
  let k := entry_key Addmm.addmm_kernel c1.1 c1.2 in
  let r1 := run Addmm.addmm_kernel Addmm.world 0 c1.1 c1.2 st in
  let r2 := run Addmm.addmm_kernel Addmm.world 0 c2.1 c2.2 r1.2 in
  (passes r1.2 ≤ passes st + 1)%nat ∧
  passes r2.2 = passes r1.2 ∧
  ∃ e, r1.1 = Ret e ∧ cached 0 k r1.2 = Some e ∧
       cached 0 k r2.2 = Some e ∧ (∀ e', r2.1 = Ret e' → e' = e).
Proof.
  intros st c1 c2 k r1 r2.
  apply (equal_keys_compile_once Addmm.addmm_kernel Addmm.world 0 c1 [c2] st
           0 r2.1 r2.2).
  - constructor; [vm_compute; reflexivity | constructor].
  - vm_compute. reflexivity.
Defined.

End RunFacts.

(** ** Single flight under concurrent callers *)

Module ThreadFacts.
Import Py PyFacts Exn PyDict PyDictFacts Triton Entry RunFacts Threads.

Lemma count_app p l1 l2 : count p (l1 ++ l2) = (count p l1 + count p l2)%nat.
Proof. unfold count. by rewrite List.filter_app, length_app. Qed.

Lemma count_cons p t l :
  count p (t :: l) = ((if p (pc t) then 1 else 0) + count p l)%nat.
Proof. unfold count. simpl. by destruct (p (pc t)). Qed.

Lemma count_split p l1 t l2 :
  count p (l1 ++ t :: l2)
  = (count p l1 + (if p (pc t) then 1 else 0) + count p l2)%nat.
Proof. rewrite count_app, count_cons. lia. Qed.








Lemma well_formed_goto self w k t l :
  well_formed self w k t → well_formed self w k (goto t l).
Proof. done. Qed.


Section SingleFlight.
Context (self : LibEntry) (w : World) (device : nat) (k : pyval) (p0 : nat).
Hypothesis recognized_chain : recognized (fn self) = true.










End SingleFlight.



Lemma exec_sound self w device schedule c c' :
  exec self w device schedule c = Some c' → rtc (step self w device) c c'.
Proof.
  revert c. induction schedule as [|i s IH]; intros [sh ts]; simpl.
  - intros [= <-]. constructor.
  - destruct (ts !! i) as [t|] eqn:Hi; [|done].
    destruct (thread_step self w device sh t) as [[sh' l]|] eqn:Hs; [|done].
    intros Hex. eapply rtc_l; [|by apply IH].
    rewrite insert_take_drop by (by eapply lookup_lt_Some).
    rewrite <- (take_drop_middle ts i t Hi) at 1.
    by apply step_thread.
Qed.




End ThreadFacts.

(** ** The tuner's table *)

Module TunerFacts.
Import Py PyFacts Exn PyDict PyDictFacts Triton Tuner.

Lemma select_create name db :
  select_all name (create_table name db) = select_all name db.
Proof.
  unfold select_all, create_table. destruct (db !! name) eqn:E; [by rewrite E|].
  by rewrite lookup_insert_eq.
Qed.

Lemma libtuner_create name db :
  libtuner_table name db →
  ∃ t, create_table name db !! name = Some t ∧ unique_key t = false ∧
       rows t = select_all name db.
Proof.
  unfold libtuner_table, create_table, select_all.
  destruct (db !! name) as [t|] eqn:E; intros H.
  - exists t. by rewrite E.
  - eexists. rewrite lookup_insert_eq. done.
Qed.

Lemma insert_appends name row db t :
  db !! name = Some t → unique_key t = false →
  ∃ t', insert_or_ignore name row db !! name = Some t' ∧
        unique_key t' = false ∧ rows t' = rows t ++ [row].
Proof.
  intros Ht Hu. unfold insert_or_ignore, insert_or_ignore_row.
  rewrite lookup_alter_eq, Ht. simpl. rewrite Hu. simpl. eauto.
Qed.

(** On a table of its own making [store] appends one row per cache item. *)
Lemma store_appends name s db :
  libtuner_table name db →
  select_all name (store name s db)
  = select_all name db ++ map row_of (cache s).
Proof.
  intros Hdb. unfold store.
  destruct (libtuner_create name db Hdb) as (t & Ht & Hu & <-).
  generalize dependent t. generalize (create_table name db).
  induction (cache s) as [|kc l IH]; intros d t Ht Hu; simpl.
  - unfold select_all. rewrite Ht. by rewrite app_nil_r.
  - destruct (insert_appends name (py_str kc.1, config_str kc.2) d t Ht Hu)
      as (t' & Ht' & Hu' & Hr').
    rewrite (IH _ t' Ht' Hu'), Hr', <- app_assoc. done.
Qed.

Lemma rows_for_app key_text (l1 l2 : list (string * string)) :
  length (List.filter (λ r, String.eqb r.1 key_text) (l1 ++ l2))
  = (length (List.filter (λ r, String.eqb r.1 key_text) l1)
     + length (List.filter (λ r, String.eqb r.1 key_text) l2))%nat.
Proof. by rewrite List.filter_app, length_app. Qed.

Lemma rows_for_elem key_text config_text (l : list (string * string)) :
  (key_text, config_text) ∈ l →
  (1 ≤ length (List.filter (λ r, String.eqb r.1 key_text) l))%nat.
Proof.
  induction l as [|r l IH]; [by intros ?%elem_of_nil|].
  intros [<-|Hin]%elem_of_cons; simpl.
  - rewrite String.eqb_refl. simpl. lia.
  - specialize (IH Hin). destruct (String.eqb _ _); simpl; lia.
Qed.

(** C3 (the code departs from it): the table is created without a
    uniqueness constraint, so [INSERT OR IGNORE] never ignores.  A key that
    has a row in the table and an item in the cache has, after [store], its
    old row and a second one. *)
Theorem store_duplicates_key (name : string) (db : database) (s : TunerState)
    (key : pyval) (old_config : string) (new_config : Config) :
  libtuner_table name db →
  (py_str key, old_config) ∈ select_all name db →
  (key, new_config) ∈ cache s →
  select_all name (store name s db)
  = select_all name db ++ map row_of (cache s) ∧
  (py_str key, config_str new_config) ∈ select_all name (store name s db) ∧
  (2 ≤ rows_for (py_str key) name (store name s db))%nat.
Proof.
  intros Hdb Hold Hnew. rewrite (store_appends name s db Hdb).
  split; [done|]. split.
  - apply elem_of_app. right.
    apply (list_elem_of_fmap_2 row_of _ _ Hnew).
  - unfold rows_for. rewrite (store_appends name s db Hdb), rows_for_app.
    pose proof (rows_for_elem _ _ _ Hold).
    pose proof (rows_for_elem (py_str key) (config_str new_config)
                  (map row_of (cache s))
                  (list_elem_of_fmap_2 row_of _ _ Hnew)).
    lia.
Qed.

Lemma store_duplicates_key_witness :
  select_all "addmm_kernel"
    (store "addmm_kernel" (Addmm.tuned Addmm.config8) Addmm.table_with_config0)
  = [ ("(64, 64, 64)", config_str Addmm.config0);
      ("(64, 64, 64)", config_str Addmm.config8) ] ∧
  (2 ≤ rows_for "(64, 64, 64)" "addmm_kernel"
         (store "addmm_kernel" (Addmm.tuned Addmm.config8)
            Addmm.table_with_config0))%nat.
Proof.
  destruct (store_duplicates_key "addmm_kernel" Addmm.table_with_config0
              (Addmm.tuned Addmm.config8) Addmm.shape
              (config_str Addmm.config0) Addmm.config8)
    as (Hrows & _ & Hcount).
  - vm_compute. reflexivity.
  - vm_compute. left.
  - left.
  - split; [|exact Hcount]. rewrite Hrows. vm_compute. reflexivity.
Defined.

(** *** Loading *)

Lemma generator_ne k i : (∀ j, k ≠ VGenerator j) → py_eqb (VGenerator i) k = false.
Proof. intros H. destruct k; try done. by destruct (H id). Qed.

(** [preload] changes the cache at generator keys only. *)
Lemma load_rows_other_keys I table_rows s k :
  (∀ j, k ≠ VGenerator j) →
  get k (cache (load_rows I table_rows s).2) = get k (cache s).
Proof.
  intros Hk. revert s.
  induction table_rows as [|[key_str config_text] rest IH]; intros s; [done|].
  simpl. destruct (read_config I config_text) as [config|x]; [|done].
  rewrite IH. simpl. by apply get_set_ne, generator_ne.
Qed.

(** C4 (the code departs from it): [preload] stores each row under the
    generator object of line 64, never under the tuple it denotes.  After
    [store] has written the in-memory item of a tuple key and a fresh
    [LibTuner] has run [preload] on that table, the row is in the table but
    the cache has nothing under the key, so the shape is tuned again. *)
Theorem roundtrip_key_lost (I : Interp) (name : string) (db : database)
    (s : TunerState) (items : list pyval) (config : Config) :
  libtuner_table name db →
  (VTuple items, config) ∈ cache s →
  let db' := store name s db in
  let reloaded := (preload I name db' fresh_tuner).2.2 in
  (py_str (VTuple items), config_str config) ∈ select_all name db' ∧
  get (VTuple items) (cache reloaded) = None.
Proof.
  intros Hdb Hin db' reloaded. subst db' reloaded. split.
  - rewrite (store_appends name s db Hdb). apply elem_of_app. right.
    apply (list_elem_of_fmap_2 row_of _ _ Hin).
  - unfold preload. simpl. by rewrite load_rows_other_keys.
Qed.

Lemma roundtrip_key_lost_witness :
  let db' := store "addmm_kernel" (Addmm.tuned Addmm.config0) ∅ in
  let reloaded := (preload literals "addmm_kernel" db' fresh_tuner).2.2 in
  (py_str (VTuple [VInt 64; VInt 64; VInt 64]), config_str Addmm.config0)
    ∈ select_all "addmm_kernel" db' ∧
  get (VTuple [VInt 64; VInt 64; VInt 64]) (cache reloaded) = None.
Proof.
  apply (roundtrip_key_lost literals "addmm_kernel" ∅
           (Addmm.tuned Addmm.config0) [VInt 64; VInt 64; VInt 64]
           Addmm.config0).
  - reflexivity.
  - left.
Defined.

Lemma fresh_generator_absent s :
  ids_fresh s → get (VGenerator (next_id s)) (cache s) = None.
Proof.
  unfold ids_fresh. induction 1 as [|[k c] l Hk _ IH]; [done|].
  simpl. destruct (py_eqb k (VGenerator (next_id s))) eqn:E; [|done].
  destruct k; try discriminate. simpl in E. apply Nat.eqb_eq in E. subst.
  specialize (Hk _ eq_refl). lia.
Qed.

Lemma load_rows_all I table_rows s :
  ids_fresh s →
  Forall (λ r, returns (read_config I r.2) = true) table_rows →
  ∃ s', load_rows I table_rows s = (Ret tt, s') ∧ ids_fresh s' ∧
        length (cache s') = (length (cache s) + length table_rows)%nat ∧
        next_id s' = (next_id s + length table_rows)%nat.
Proof.
  intros Hs Hall. revert s Hs.
  induction Hall as [|[key_str config_text] rest Hr _ IH]; intros s Hs.
  - exists s. simpl. repeat split; (done || lia).
  - simpl in *. destruct (read_config I config_text) as [config|x]; [|done].
    set (s1 := cache_set _ _ _).
    assert (Hset : cache s1 = cache s ++ [(VGenerator (next_id s), config)])
      by (apply set_absent, fresh_generator_absent, Hs).
    assert (Hs1 : ids_fresh s1).
    { unfold ids_fresh. rewrite Hset. apply Forall_app. split.
      - eapply Forall_impl; [exact Hs|]. intros kc H i E.
        specialize (H i E). simpl. lia.
      - constructor; [|constructor]. intros i [= <-]. simpl. lia. }
    destruct (IH s1 Hs1) as (s' & Hload & Hf & Hlen & Hid).
    exists s'. rewrite Hload. repeat split; try done.
    + rewrite Hlen, Hset, length_app. simpl. lia.
    + rewrite Hid. simpl. lia.
Qed.




End TunerFacts.

(** * Further properties of the code *)

(** ** The cache is only ever extended *)

Module CacheFacts.
Import Py PyFacts Exn PyDict PyDictFacts Triton Entry RunFacts.

Lemma publish_other_device device d k e st :
  d ≠ device →
  kernel_cache (publish device k e st) !! d = kernel_cache st !! d.
Proof. intros H. unfold publish. simpl. by rewrite list_lookup_alter_ne. Qed.

(** An entry stored on any device survives every later call of [run],
    whatever its arguments and its outcome; a call on [device] leaves the
    dictionaries of the other devices as they are, and the tuple of
    dictionaries keeps its length. *)
Theorem run_keeps_entries (self : LibEntry) (w : World) (device : nat)
    (args : list pyval) (kwargs : gmap string pyval) (st : state)
    (d : nat) (k : pyval) (e : CacheEntry) :
  cached d k st = Some e →
  let st' := (run self w device args kwargs st).2 in
  cached d k st' = Some e ∧
  length (kernel_cache st') = length (kernel_cache st) ∧
  (d ≠ device → kernel_cache st' !! d = kernel_cache st !! d).
Proof.
  intros Hk st'. subst st'.
  destruct (kwargs !! "grid") as [grid|] eqn:Hg;
    [|unfold run; rewrite Hg; done].
  destruct (kernel_cache st !! device) as [cache|] eqn:Hc;
    [|unfold run; rewrite Hg, Hc; done].
  destruct (get (entry_key self args kwargs) cache) as [e'|] eqn:Hk'.
  - rewrite (run_hit _ _ _ _ _ _ _ _ _ Hg Hc Hk'). cbv zeta.
    destruct (resolve_grid _ _ _ _ _ _); simpl; unfold cached; simpl;
      rewrite cache_log_grid; done.
  - rewrite (run_miss _ _ _ _ _ _ _ _ Hg Hc Hk').
    destruct (gather _ _ _ _ _) as [entry|x]; simpl; [|done].
    split; [|split].
    + destruct (decide (d = device)) as [->|Hd].
      * rewrite cached_publish_ne; [done|].
        destruct (py_eqb (entry_key self args kwargs) k) eqn:E; [|done].
        unfold cached in Hk. rewrite Hc in Hk. simpl in Hk.
        rewrite (get_proper _ _ _ E) in Hk'. congruence.
      * unfold cached in *. by rewrite publish_other_device.
    + unfold publish. simpl. by rewrite length_alter.
    + intros Hd. by apply list_lookup_alter_ne.
Qed.

Lemma run_keeps_entries_witness :
  let k := entry_key Addmm.addmm_kernel Addmm.args Addmm.kwargs in
  let st' := (run Addmm.addmm_kernel Addmm.world 0 (Addmm.args_at 4104 1)
                  Addmm.kwargs Addmm.warm).2 in
  passes st' = 2%nat ∧
  cached 0 k st' = cached 0 k Addmm.warm ∧
  length (kernel_cache st') = 1%nat.
Proof.
  intros k st'.
  destruct (cached 0 k Addmm.warm) as [e|] eqn:He;
    [|vm_compute in He; discriminate].
  destruct (run_keeps_entries Addmm.addmm_kernel Addmm.world 0
              (Addmm.args_at 4104 1) Addmm.kwargs Addmm.warm 0 k e He)
    as (Hk & Hlen & _).
  split; [vm_compute; reflexivity|]. split; [exact Hk|].
  fold st' in Hlen. rewrite Hlen. reflexivity.
Defined.

End CacheFacts.

(** ** The key and Python's equality *)

Module KeyEquality.
Import Py PyFacts Exn PyDict Triton Entry KeyFacts.

Lemma items_eqb_refl l : items_eqb l l = true.
Proof. induction l; simpl; [done|]. by rewrite py_eqb_refl. Qed.

Lemma items_eqb_middle l1 x y l2 :
  items_eqb (l1 ++ x :: l2) (l1 ++ y :: l2) = py_eqb x y.
Proof.
  induction l1 as [|a l1 IH]; simpl.
  - rewrite items_eqb_refl. apply andb_true_r.
  - by rewrite py_eqb_refl, IH.
Qed.

(** A compile-time constant enters the key as the bare value, so [True] and
    [1] (and [False] and [0]) in that position give keys that are equal for
    the dictionary: the two calls share one compiled kernel.  A specializing
    scalar enters it with its type, which keeps the two apart. *)
Theorem bool_and_int_constants_collide
    (spec dns c1 c2 s1 s2 : list pyval) (b : bool) :
  py_eqb (key spec dns (c1 ++ VBool b :: c2))
         (key spec dns (c1 ++ VInt (Z.b2z b) :: c2)) = true ∧
  py_eqb (key (s1 ++ VBool b :: s2) dns c1)
         (key (s1 ++ VInt (Z.b2z b) :: s2) dns c1) = false.
Proof.
  split.
  - unfold key. rewrite py_eqb_tuple, !(assoc_L (++)).
    rewrite items_eqb_middle. simpl. apply Z.eqb_refl.
  - unfold key. rewrite py_eqb_tuple, !map_app. simpl.
    rewrite <- !(assoc_L (++)). simpl. rewrite items_eqb_middle.
    reflexivity.
Qed.

(** Two calls whose specializing scalar at one position differs in value
    get different keys. *)
Theorem key_separates_scalar_values
    (spec1 spec2 dns1 dns2 const1 const2 : list pyval) (i : nat)
    (a b : pyval) :
  spec1 !! i = Some a → spec2 !! i = Some b →
  has_data_ptr a = false → has_data_ptr b = false →
  py_eqb a b = false →
  py_eqb (key spec1 dns1 const1) (key spec2 dns2 const2) = false.
Proof.
  intros H1 H2 Ha Hb Hab.
  unfold key at 1 2. rewrite py_eqb_tuple.
  eapply items_eqb_differ.
  - apply (key_spec_lookup spec1 dns1 const1 _ _ H1).
  - apply (key_spec_lookup spec2 dns2 const2 _ _ H2).
  - assert (Hitem : ∀ v, has_data_ptr v = false →
              spec_key_item v = VTuple [VType (type_of v); v])
      by (intros []; done).
    rewrite (Hitem a Ha), (Hitem b Hb), py_eqb_tuple. simpl.
    rewrite Hab. apply andb_false_r.
Qed.

Lemma key_separates_scalar_values_witness :
  py_eqb (key [VTensor 1 float16 0; VInt 64] [] [])
         (key [VTensor 1 float16 0; VInt 128] [] []) = false.
Proof.
  apply (key_separates_scalar_values _ _ _ _ _ _ 1%nat (VInt 64) (VInt 128));
    reflexivity.
Defined.

End KeyEquality.

(** ** The lock *)

Module LockFacts.
Import Py PyFacts Exn PyDict PyDictFacts Triton Entry RunFacts Threads
  ThreadFacts.

Lemma lock_step self w device c c' :
  count holds (threads c) = (if locked (mem c) then 1 else 0)%nat →
  step self w device c c' →
  count holds (threads c') = (if locked (mem c') then 1 else 0)%nat.
Proof.
  intros Hlock Hstep. destruct Hstep as [sh sh' l1 t l2 l Hts]. simpl in *.
  rewrite count_split in *. unfold thread_step in Hts.
  destruct sh as [s lk]. simpl in *.
  destruct (pc t) as [ | | | | |kn n|e0|lv| |o]; simpl in *.
  - destruct (t_kwargs t !! "grid"); [destruct (kernel_cache s !! device)|];
      simplify_eq; done.
  - destruct (cached device _ s); simplify_eq; done.
  - destruct lk; simplify_eq. simpl. lia.
  - destruct (cached device _ s); simplify_eq; done.
  - simplify_eq. done.
  - destruct (gather _ _ _ _ _); simplify_eq; done.
  - simplify_eq. done.
  - simplify_eq. simpl. destruct lk; destruct lv; simpl; lia.
  - destruct (cached device _ s) as [e|]; [|simplify_eq; done].
    destruct (t_kwargs t !! "grid") as [grid|]; [|simplify_eq; done].
    destruct (resolve_grid _ _ _ _ _ _); simplify_eq; done.
  - done.
Qed.

(** Whatever the callers, their arguments and the stage chain are: in every
    interleaving at most one caller is inside the [with self.lock] block,
    the lock is held exactly while one is, and once all callers have
    finished (returned or raised) the lock is free. *)
Theorem lock_discipline (self : LibEntry) (w : World) (device : nat)
    (calls : list (list pyval * gmap string pyval)) (st0 : state)
    (c : config) :
  rtc (step self w device) (start st0 calls) c →
  count holds (threads c) = (if locked (mem c) then 1 else 0)%nat ∧
  (final c → locked (mem c) = false).
Proof.
  intros Hrtc.
  assert (H0 : count holds (threads (start st0 calls)) = 0%nat).
  { clear Hrtc. simpl. induction calls as [|a l IH]; [done|].
    simpl. rewrite count_cons. simpl. exact IH. }
  assert (Hinv : count holds (threads c)
                 = (if locked (mem c) then 1 else 0)%nat).
  { remember (start st0 calls) as c0 eqn:E.
    assert (Hc0 : count holds (threads c0)
                  = (if locked (mem c0) then 1 else 0)%nat)
      by (subst; by rewrite H0).
    clear E H0. induction Hrtc as [|x y z Hxy _ IH]; [done|].
    apply IH. by eapply lock_step. }
  split; [done|]. intros Hfin.
  assert (Hz : count holds (threads c) = 0%nat).
  { unfold final in Hfin. clear -Hfin. revert Hfin. generalize (threads c).
    induction 1 as [|t ts Ht _ IH]; [done|].
    rewrite count_cons, IH. by destruct (pc t). }
  rewrite Hz in Hinv. by destruct (locked (mem c)).
Qed.

Lemma lock_discipline_witness :
  ∃ c, exec Addmm.misregistered Addmm.world 0 Addmm.one_after_the_other
         (start (init Addmm.misregistered) Addmm.two_calls) = Some c ∧
       passes (st (mem c)) = 2%nat ∧
       count holds (threads c) = 0%nat ∧ locked (mem c) = false.
Proof.
  destruct (exec Addmm.misregistered Addmm.world 0 Addmm.one_after_the_other
              (start (init Addmm.misregistered) Addmm.two_calls))
    as [c|] eqn:Hex; [|vm_compute in Hex; discriminate].
  exists c. split; [reflexivity|].
  destruct (lock_discipline Addmm.misregistered Addmm.world 0 Addmm.two_calls
              (init Addmm.misregistered) c (exec_sound _ _ _ _ _ _ Hex))
    as [Hcount Hfree].
  assert (Hfin : final c ∧ passes (st (mem c)) = 2%nat).
  { vm_compute in Hex. injection Hex as <-.
    split; [repeat constructor | reflexivity]. }
  destruct Hfin as [Hfin Hp]. specialize (Hfree Hfin).
  rewrite Hfree in Hcount. done.
Defined.

Lemma exec_solo self w device s sh t sh' l :
  thread_step self w device sh t = Some (sh', l) →
  exec self w device (0%nat :: s) {| mem := sh; threads := [t] |}
  = exec self w device s {| mem := sh'; threads := [goto t l] |}.
Proof. intros H. simpl. by rewrite H. Qed.

Local Ltac solo_step tac :=
  erewrite exec_solo;
  [| unfold thread_step; cbn [pc t_args t_kwargs goto st locked];
     tac; reflexivity ];
  cbn [goto t_args t_kwargs pc].

(** A caller that runs alone goes through the labels to the outcome and the
    state that [run] computes, in at most eight moves, and leaves the lock
    free. *)
Theorem lone_caller_is_run (self : LibEntry) (w : World) (device : nat)
    (args : list pyval) (kwargs : gmap string pyval) (st0 : state) :
  ∃ n, (n ≤ 8)%nat ∧
    exec self w device (replicate n 0%nat) (start st0 [(args, kwargs)])
    = Some {| mem := {| st := (run self w device args kwargs st0).2;
                        locked := false |};
              threads := [ {| t_args := args; t_kwargs := kwargs;
                              pc := Done (run self w device args kwargs st0).1
                           |} ] |}.
Proof.
  unfold start. cbn [map fst snd].
  destruct (kwargs !! "grid") as [grid|] eqn:Hg.
  2:{ exists 1%nat. split; [lia|]. cbn [replicate].
      solo_step ltac:(rewrite Hg).
      unfold run. by rewrite Hg. }
  destruct (kernel_cache st0 !! device) as [cache|] eqn:Hc.
  2:{ exists 1%nat. split; [lia|]. cbn [replicate].
      solo_step ltac:(rewrite Hg, Hc).
      unfold run. by rewrite Hg, Hc. }
  destruct (get (entry_key self args kwargs) cache) as [e|] eqn:Hk.
  - exists 3%nat. split; [lia|]. cbn [replicate].
    assert (Hcached : cached device (entry_key self args kwargs) st0 = Some e)
      by (unfold cached; by rewrite Hc).
    rewrite (run_hit _ _ _ _ _ _ _ _ _ Hg Hc Hk). cbv zeta.
    solo_step ltac:(rewrite Hg, Hc).
    solo_step ltac:(rewrite Hcached).
    destruct (resolve_grid self w grid args kwargs (constexprs e))
      as [g3|x] eqn:Hr.
    + solo_step ltac:(rewrite Hcached, Hg, Hr). reflexivity.
    + solo_step ltac:(rewrite Hcached, Hg, Hr). reflexivity.
  - assert (Hcached : cached device (entry_key self args kwargs) st0 = None)
      by (unfold cached; by rewrite Hc).
    rewrite (run_miss _ _ _ _ _ _ _ _ Hg Hc Hk).
    destruct (gather self (passes st0) args kwargs
                (fn_run w (passes st0) args kwargs)) as [entry|x] eqn:Hgath.
    + exists 8%nat. split; [lia|]. cbn [replicate].
      solo_step ltac:(rewrite Hg, Hc).
      solo_step ltac:(rewrite Hcached).
      solo_step idtac.
      solo_step ltac:(rewrite Hcached).
      solo_step idtac.
      solo_step ltac:(rewrite Hgath).
      solo_step idtac.
      solo_step idtac.
      reflexivity.
    + exists 7%nat. split; [lia|]. cbn [replicate].
      solo_step ltac:(rewrite Hg, Hc).
      solo_step ltac:(rewrite Hcached).
      solo_step idtac.
      solo_step ltac:(rewrite Hcached).
      solo_step idtac.
      solo_step ltac:(rewrite Hgath).
      solo_step idtac.
      reflexivity.
Qed.

End LockFacts.

(** ** The constants gathered on a miss *)

Module ConstFacts.
Import Py PyFacts Exn PyDict PyDictFacts Triton Entry RunFacts More.

(** A declared default only fills a gap: after the loop of lines 244-250 a
    name the walk has bound keeps its value, and an unbound name has the
    default of the first compile-time-constant parameter of that name that
    declares one, if there is any. *)
Theorem defaults_fill_gaps_only (ps : list KernelParam)
    (c : gmap string pyval) (n : string) :
  fill_defaults ps c !! n =
  match c !! n with
  | Some v => Some v
  | None => declared_default ps n
  end.
Proof.
  revert c. induction ps as [|p ps IH]; intros c.
  - simpl. unfold declared_default. simpl. by destruct (c !! n).
  - unfold fill_defaults in *. simpl. rewrite IH. clear IH.
    unfold declared_default. simpl.
    destruct (is_constexpr p) eqn:Hc; simpl; [|done].
    destruct (String.eqb_spec (name p) n) as [E|Hne]; simpl.
    + subst n. destruct (c !! name p) as [v0|] eqn:Hn.
      * by rewrite Hn.
      * destruct (default p) as [d|] eqn:Hd.
        -- rewrite lookup_insert_eq. simpl.
           try rewrite bool_decide_eq_true_2 by eauto. done.
        -- rewrite Hn. simpl.
           try rewrite bool_decide_eq_false_2 by (by intros [? ?]). done.
    + destruct (c !! name p) as [v0|] eqn:Hn; [done|].
      destruct (default p) as [d|] eqn:Hd; [|done].
      by rewrite lookup_insert_ne.
Qed.

Lemma kwargs_get_snoc x d k v :
  kwargs_get x (d ++ [(k, v)]) = if String.eqb k x then Some v else kwargs_get x d.
Proof. unfold kwargs_get. rewrite reverse_snoc. simpl. by destruct (String.eqb k x). Qed.

Lemma spread_lookup d m x :
  spread d m !! x =
  match kwargs_get x d with
  | Some v => Some v
  | None => m !! x
  end.
Proof.
  induction d as [|[k v] d IH] using rev_ind.
  - done.
  - unfold spread in *. rewrite foldl_snoc, kwargs_get_snoc. simpl.
    destruct (String.eqb_spec k x) as [->|Hne].
    + by rewrite lookup_insert_eq.
    + by rewrite lookup_insert_ne.
Qed.

Lemma heuristics_other_name names args kwargs values c x :
  x ∉ values.*1 →
  foldl (λ c vh, <[vh.1 := vh.2 (merged names args kwargs c)]> c) c values !! x
  = c !! x.
Proof.
  revert c. induction values as [|[v h] values IH]; intros c Hx; [done|].
  simpl in *. apply not_elem_of_cons in Hx as [Hne Hx].
  rewrite IH by done. by rewrite lookup_insert_ne.
Qed.

Lemma collect_num_ctas n args kwargs f c c' :
  ¬ binds "num_ctas" f → c !! "num_ctas" = None →
  collect_constexprs n args kwargs f c = Ret c' →
  c' !! "num_ctas" = None.
Proof.
  revert c. induction f as [a ps|a best f IH|a values f IH|a f IH];
    intros c Hb Hc; simpl in *.
  - by intros [= <-].
  - apply IH; [tauto|].
    rewrite lookup_insert_ne, lookup_insert_ne, Hc by done.
    rewrite spread_lookup, lookup_insert_ne, lookup_insert_ne, Hc by done.
    destruct (kwargs_get "num_ctas" (Triton.kwargs (best n args kwargs)))
      eqn:E; [|done].
    exfalso. apply Hb. left. exists n, args, kwargs. rewrite E. eauto.
  - apply IH; [tauto|]. rewrite heuristics_other_name; [done|tauto].
  - done.
Qed.

(** The walk copies [num_ctas] from a tuner's best configuration only when
    [constexprs] already has that name, and it starts from the empty
    dictionary: unless a heuristic or a meta-parameter is itself called
    [num_ctas], or a compile-time-constant parameter of that name declares a
    default, the cached constants (and so the grid's [meta]) have no
    [num_ctas], whatever the tuner chose. *)
Theorem num_ctas_is_never_gathered (self : LibEntry) (n : nat)
    (args : list pyval) (kwargs : gmap string pyval) (kernel : nat)
    (e : CacheEntry) :
  ¬ binds "num_ctas" (fn self) →
  declared_default (params self) "num_ctas" = None →
  gather self n args kwargs kernel = Ret e →
  constexprs e !! "num_ctas" = None.
Proof.
  intros Hb Hd. unfold gather.
  destruct (collect_constexprs n args kwargs (fn self) ∅) as [c|x] eqn:Hc;
    simpl; [|done].
  intros [= <-]. simpl. rewrite defaults_fill_gaps_only.
  by rewrite (collect_num_ctas _ _ _ _ _ _ Hb (lookup_empty _) Hc).
Qed.

Lemma num_ctas_is_never_gathered_witness :
  ∃ e, gather Addmm.addmm_kernel 0 Addmm.args Addmm.kwargs 0 = Ret e ∧
       constexprs e !! "num_ctas" = None ∧
       constexprs e !! "num_warps" = Some (VInt 1).
Proof.
  destruct (gather Addmm.addmm_kernel 0 Addmm.args Addmm.kwargs 0)
    as [e|x] eqn:He; [|vm_compute in He; discriminate].
  exists e. split; [done|]. split.
  - apply (num_ctas_is_never_gathered Addmm.addmm_kernel 0 Addmm.args
             Addmm.kwargs 0 e); [|reflexivity|exact He].
    simpl. intros [(n & a & k & H)|[H|[]]].
    + vm_compute in H. by destruct H.
    + simpl in H.
      repeat (apply elem_of_cons in H as [H|H]; [discriminate|]).
      by apply elem_of_nil in H.
  - vm_compute in He. injection He as <-. vm_compute. reflexivity.
Defined.



(** A [grid] that is a tuple is used as it is, without a call: [(1, 1)] is
    appended and the first three items are the launch shape, so a fourth
    dimension is dropped.  A [grid] that is neither callable nor a tuple
    makes a cache hit raise TypeError before anything is launched. *)
Theorem fixed_grid_launch (self : LibEntry) (w : World) (device : nat)
    (args : list pyval) (kwargs : gmap string pyval) (st : state)
    (grid : pyval) (cache : pydict CacheEntry) (e : CacheEntry) :
  kwargs !! "grid" = Some grid →
  callable grid = false →
  kernel_cache st !! device = Some cache →
  get (entry_key self args kwargs) cache = Some e →
  run self w device args kwargs st =
  match grid with
  | VTuple g =>
      (Ret e,
       log (EvLaunch (kernel e) (take 3 (g ++ [VInt 1; VInt 1]))
              (k_args (collect_args self args kwargs))) st)
  | _ => (Raise TypeError, st)
  end.
Proof.
  intros Hg Hcall Hc Hk. rewrite (run_hit _ _ _ _ _ _ _ _ _ Hg Hc Hk).
  cbv zeta. by destruct grid.
Qed.

Lemma fixed_grid_launch_witness :
  let kw : gmap string pyval :=
    {[ "grid" := VTuple [VInt 2; VInt 3; VInt 4; VInt 5] ]} in
  direct_events (run Addmm.addmm_kernel Addmm.world 0 Addmm.args kw
                     Addmm.warm).2
  = [EvLaunch 0 [VInt 2; VInt 3; VInt 4]
       (k_args (collect_args Addmm.addmm_kernel Addmm.args kw))].
Proof.
  intros kw.
  destruct (kernel_cache Addmm.warm !! 0%nat) as [cache|] eqn:Hc;
    [|vm_compute in Hc; discriminate].
  destruct (get (entry_key Addmm.addmm_kernel Addmm.args kw) cache)
    as [e|] eqn:Hk.
  2:{ vm_compute in Hc. injection Hc as <-. vm_compute in Hk. discriminate. }
  rewrite (fixed_grid_launch Addmm.addmm_kernel Addmm.world 0 Addmm.args kw
             Addmm.warm (VTuple [VInt 2; VInt 3; VInt 4; VInt 5]) cache e
             eq_refl eq_refl Hc Hk).
  assert (He : kernel e = 0%nat).
  { vm_compute in Hc. injection Hc as <-. vm_compute in Hk.
    by injection Hk as <-. }
  rewrite He. unfold direct_events, log. simpl.
  rewrite List.filter_app. simpl.
  replace (List.filter is_direct (trace Addmm.warm)) with (@nil event)
    by (vm_compute; reflexivity).
  reflexivity.
Defined.

End ConstFacts.

(** ** The roles of the positional arguments *)

Module RoleFacts.
Import Py PyFacts Exn PyDict PyDictFacts Triton Entry RunFacts More.

Lemma in_indices (ps : list KernelParam) (P : KernelParam → bool) (i : nat) :
  numbered ps →
  i ∈ map num (List.filter P ps) ↔ ∃ p, ps !! i = Some p ∧ P p = true.
Proof.
  intros Hnum. rewrite list_elem_of_fmap. split.
  - intros (p & -> & Hp). apply list_elem_of_In, filter_In in Hp as [Hin HP].
    apply list_elem_of_In, list_elem_of_lookup in Hin as [j Hj].
    exists p. by rewrite (Hnum j p Hj).
  - intros (p & Hi & HP). exists p. split; [by rewrite (Hnum i p Hi)|].
    apply list_elem_of_In, filter_In. split; [|done].
    apply list_elem_of_In, list_elem_of_lookup. eauto.
Qed.

Lemma specializing_index self i :
  numbered (params self) →
  bool_decide (i ∈ specialize_indices self)
  = role_eqb (role_at self i) Specializing.
Proof.
  intros Hnum. unfold specialize_indices, role_at, role_of.
  destruct (params self !! i) as [p|] eqn:Hp.
  - destruct (is_constexpr p) eqn:Hc, (do_not_specialize p) eqn:Hd; simpl.
    all: first
      [ apply bool_decide_eq_true_2, in_indices; [done|];
        exists p; by rewrite Hc, Hd
      | apply bool_decide_eq_false_2; rewrite in_indices by done;
        intros (q & Hq & HP); rewrite Hp in Hq; injection Hq as <-;
        by rewrite Hc, Hd in HP ].
  - apply bool_decide_eq_false_2. rewrite in_indices by done.
    intros (q & Hq & _). congruence.
Qed.

Lemma runtime_only_index self i :
  numbered (params self) →
  bool_decide (i ∈ do_not_specialize_indices self)
  = role_eqb (role_at self i) RuntimeOnly.
Proof.
  intros Hnum. unfold do_not_specialize_indices, role_at, role_of.
  destruct (params self !! i) as [p|] eqn:Hp.
  - destruct (is_constexpr p) eqn:Hc, (do_not_specialize p) eqn:Hd; simpl.
    all: first
      [ apply bool_decide_eq_true_2, in_indices; [done|];
        exists p; by rewrite Hc, Hd
      | apply bool_decide_eq_false_2; rewrite in_indices by done;
        intros (q & Hq & HP); rewrite Hp in Hq; injection Hq as <-;
        by rewrite Hc, Hd in HP ].
  - apply bool_decide_eq_false_2. rewrite in_indices by done.
    intros (q & Hq & _). congruence.
Qed.

Lemma positional_fold self (l : list (nat * pyval)) g :
  numbered (params self) →
  let pick r := (List.filter (λ ia, role_eqb (role_at self ia.1) r) l).*2 in
  let g' :=
    foldl (λ g ia,
             if bool_decide (ia.1 ∈ specialize_indices self)
             then add_spec ia.2 g
             else if bool_decide (ia.1 ∈ do_not_specialize_indices self)
             then add_dns ia.2 g
             else add_const ia.2 g) g l in
  spec_args g' = spec_args g ++ pick Specializing ∧
  dns_args g' = dns_args g ++ pick RuntimeOnly ∧
  const_args g' = const_args g ++ pick Constant ∧
  k_args g'
  = k_args g
    ++ (List.filter (λ ia, negb (role_eqb (role_at self ia.1) Constant)) l).*2.
Proof.
  intros Hnum. revert g. induction l as [|[i a] l IH]; intros g; simpl.
  - by rewrite !app_nil_r.
  - rewrite (specializing_index self i Hnum), (runtime_only_index self i Hnum).
    destruct (IH
      (if role_eqb (role_at self i) Specializing then add_spec a g
       else if role_eqb (role_at self i) RuntimeOnly then add_dns a g
       else add_const a g)) as (-> & -> & -> & ->).
    destruct (role_at self i); simpl; rewrite <- ?app_assoc; done.
Qed.

(** With the parameters numbered by position, the loop over
    [enumerate(args)] sorts each positional argument by the parameter
    declared at its position: into [spec_args], [dns_args] or [const_args]
    in the order of the call, an argument behind the last parameter into
    [const_args]; [k_args] is the call with the compile-time constants
    taken out. *)
Theorem positional_arguments_by_role (self : LibEntry) (args : list pyval) :
  numbered (params self) →
  let g := collect_positional self args in
  spec_args g = with_role self Specializing args ∧
  dns_args g = with_role self RuntimeOnly args ∧
  const_args g = with_role self Constant args ∧
  k_args g
  = (List.filter (λ ia, negb (role_eqb (role_at self ia.1) Constant))
       (imap pair args)).*2.
Proof.
  intros Hnum. apply (positional_fold self (imap pair args) no_args Hnum).
Qed.

Lemma addmm_params_numbered : numbered Addmm.params.
Proof.
  intros i p H.
  do 21 (destruct i as [|i]; [by injection H as <-|]). done.
Qed.

Lemma positional_arguments_by_role_witness :
  let g := collect_positional Addmm.addmm_kernel Addmm.args in
  spec_args g = with_role Addmm.addmm_kernel Specializing Addmm.args ∧
  dns_args g = [VInt 1; VInt 1] ∧
  const_args g = [] ∧
  k_args g = Addmm.args.
Proof.
  destruct (positional_arguments_by_role Addmm.addmm_kernel Addmm.args
              addmm_params_numbered) as (Hs & Hd & Hc & Hk).
  split; [exact Hs|]. split; [|split].
  - etransitivity; [exact Hd|]. vm_compute. reflexivity.
  - etransitivity; [exact Hc|]. vm_compute. reflexivity.
  - etransitivity; [exact Hk|]. vm_compute. reflexivity.
Defined.

End RoleFacts.

(** ** What [store] and [preload] do to the table *)

Module TableFacts.
Import Py PyFacts Exn PyDict PyDictFacts Triton Tuner TunerFacts More.

Lemma insert_row_prefix row t :
  rows t `prefix_of` rows (insert_or_ignore_row row t).
Proof.
  unfold insert_or_ignore_row. case_match; simpl; [done|].
  by apply prefix_app_r.
Qed.

Lemma insert_or_ignore_frame name row db :
  (∀ other, other ≠ name →
            insert_or_ignore name row db !! other = db !! other) ∧
  select_all name db `prefix_of` select_all name (insert_or_ignore name row db).
Proof.
  split.
  - intros other Hne. unfold insert_or_ignore. by rewrite lookup_alter_ne.
  - unfold select_all, insert_or_ignore. rewrite lookup_alter_eq.
    destruct (db !! name) as [t|]; simpl; [|done]. apply insert_row_prefix.
Qed.

(** [store] only ever appends to its own table: the other tables of the
    database are left as they are, and the rows the table had are still
    there, in the same order, in front of the new ones. *)
Theorem store_is_append_only (name : string) (s : TunerState) (db : database) :
  (∀ other, other ≠ name → store name s db !! other = db !! other) ∧
  select_all name db `prefix_of` select_all name (store name s db).
Proof.
  unfold store.
  assert (H0 : (∀ other, other ≠ name →
                  create_table name db !! other = db !! other) ∧
               select_all name db
               `prefix_of` select_all name (create_table name db)).
  { split; [|by rewrite select_create].
    intros other Hne. unfold create_table.
    destruct (db !! name); [done|]. by rewrite lookup_insert_ne. }
  revert H0. generalize (create_table name db).
  induction (cache s) as [|kc l IH]; intros d [Hd1 Hd2]; simpl; [done|].
  apply IH.
  destruct (insert_or_ignore_frame name (py_str kc.1, config_str kc.2) d)
    as [Hi1 Hi2].
  split.
  - intros other Hne. by rewrite Hi1, Hd1.
  - by etransitivity.
Qed.

Lemma libtuner_table_create name db :
  libtuner_table name db → libtuner_table name (create_table name db).
Proof.
  unfold libtuner_table, create_table.
  destruct (db !! name) as [t|] eqn:E; [by rewrite E|].
  by rewrite lookup_insert_eq.
Qed.

Lemma create_table_idem name db :
  create_table name (create_table name db) = create_table name db.
Proof.
  unfold create_table at 1.
  destruct (create_table name db !! name) eqn:E; [done|].
  unfold create_table in E. destruct (db !! name) eqn:E'; [congruence|].
  by rewrite lookup_insert_eq in E.
Qed.

(** A process that constructs the tuner, wraps it in [LibEntry], tunes
    nothing and exits leaves a table three times as long: [preload] runs
    twice (in [LibTuner.__init__] and again in [LibEntry.__init__]), each
    time storing every row under a new generator key, and [store] then
    writes all of these back as new rows.  This holds when each config text
    of the table parses; the old rows stay in front. *)
Theorem idle_session_triples_table (I : Interp) (name : string)
    (db : database) :
  libtuner_table name db →
  Forall (λ r, returns (read_config I r.2) = true) (select_all name db) →
  length (select_all name (idle_session I name db))
  = (3 * length (select_all name db))%nat ∧
  select_all name db `prefix_of` select_all name (idle_session I name db).
Proof.
  intros Hdb Hrows. unfold idle_session, libtuner_init, preload.
  rewrite create_table_idem, !select_create.
  destruct (load_rows_all I (select_all name db) fresh_tuner)
    as (s1 & Hl1 & Hf1 & Hlen1 & _); [constructor|done|].
  rewrite Hl1. simpl.
  destruct (load_rows_all I (select_all name db) s1 Hf1 Hrows)
    as (s2 & Hl2 & _ & Hlen2 & _).
  rewrite Hl2. simpl.
  rewrite (store_appends name s2 _ (libtuner_table_create name db Hdb)).
  rewrite select_create. split.
  - rewrite length_app, length_map, Hlen2, Hlen1. simpl. lia.
  - by apply prefix_app_r.
Qed.

Lemma idle_session_triples_table_witness :
  length (select_all "addmm_kernel"
            (idle_session literals "addmm_kernel" Addmm.table_with_config0))
  = 3%nat.
Proof.
  destruct (idle_session_triples_table literals "addmm_kernel"
              Addmm.table_with_config0) as [Hlen _].
  - reflexivity.
  - repeat constructor.
  - rewrite Hlen. reflexivity.
Defined.

Lemma from_end_short {A} (n : nat) (l : list A) :
  (length l < n)%nat → from_end n l = Raise IndexError.
Proof.
  intros H. unfold from_end.
  by destruct (Nat.ltb_spec (length l) n); [|lia].
Qed.

(** A config text with fewer than four comma-separated fields is never
    accepted: reading it raises IndexError, whatever [eval] and [int] do. *)
Theorem short_config_is_rejected (I : Interp) (text : string) :
  (length (split ", " text) < 4)%nat →
  read_config I text = Raise IndexError.
Proof.
  intros Hlen. unfold read_config. cbv zeta.
  unfold all_but_last. rewrite length_map.
  replace (length (split ", " text) - 4)%nat with 0%nat by lia.
  simpl. rewrite (from_end_short 4) by (by rewrite length_map). done.
Qed.

Lemma short_config_is_rejected_witness :
  read_config literals "num_warps: 4, num_ctas: 1, num_stages: 2"
  = Raise IndexError.
Proof.
  apply short_config_is_rejected. vm_compute. lia.
Defined.

End TableFacts.

(** ** The launch grid of [addmm] *)

Module AddmmFacts.
Import Py PyFacts Exn PyDict Triton Entry More.

Lemma cdiv_bounds (x y : Z) :
  0 < y → (cdiv x y - 1) * y < x ≤ cdiv x y * y.
Proof.
  intros Hy. unfold cdiv.
  pose proof (Z.div_mod (x + y - 1) y ltac:(lia)) as Hdm.
  pose proof (Z.mod_pos_bound (x + y - 1) y Hy) as Hb.
  nia.
Qed.

(** The grid of [addmm] has just enough blocks: for positive block sizes it
    is [(gm, gn)] with [(gm - 1) * BLOCK_SIZE_M < M <= gm * BLOCK_SIZE_M] and
    likewise for [N]; the heuristic [EVEN_M] ([M % BLOCK_SIZE_M == 0]) holds
    exactly when the blocks tile [M] with nothing left over. *)
Theorem addmm_grid_covers (M N bm bn : Z) (META : gmap string pyval) :
  META !! "BLOCK_SIZE_M" = Some (VInt bm) →
  META !! "BLOCK_SIZE_N" = Some (VInt bn) →
  0 < bm → 0 < bn →
  ∃ gm gn,
    addmm_grid M N META = Ret (VTuple [VInt gm; VInt gn]) ∧
    (gm - 1) * bm < M ≤ gm * bm ∧
    (gn - 1) * bn < N ≤ gn * bn ∧
    (Addmm.even "M" "BLOCK_SIZE_M" (<["M" := VInt M]> META) = VBool true
     ↔ gm * bm = M).
Proof.
  intros Hm Hn Hbm Hbn. exists (cdiv M bm), (cdiv N bn).
  unfold addmm_grid. rewrite Hm, Hn.
  split; [done|]. split; [by apply cdiv_bounds|].
  split; [by apply cdiv_bounds|].
  unfold Addmm.even. rewrite lookup_insert_eq, lookup_insert_ne, Hm by done.
  pose proof (cdiv_bounds M bm Hbm) as Hb.
  pose proof (Z.div_mod M bm ltac:(lia)) as Hdm.
  pose proof (Z.mod_pos_bound M bm Hbm) as Hmb.
  destruct (Z.eqb_spec (M mod bm) 0) as [E|E]; split; intros H;
    try done; try congruence.
  - rewrite E in Hdm.
    assert (cdiv M bm = M / bm) as -> by nia. lia.
  - exfalso. apply E.
    rewrite <- H. apply Z.mod_mul. lia.
Qed.

Lemma addmm_grid_covers_witness :
  ∃ gm gn,
    addmm_grid 200 64
      {[ "BLOCK_SIZE_M" := VInt 128; "BLOCK_SIZE_N" := VInt 64 ]}
    = Ret (VTuple [VInt gm; VInt gn]) ∧
    (gm - 1) * 128 < 200 ≤ gm * 128 ∧
    (gn - 1) * 64 < 64 ≤ gn * 64.
Proof.
  destruct (addmm_grid_covers 200 64 128 64
              {[ "BLOCK_SIZE_M" := VInt 128; "BLOCK_SIZE_N" := VInt 64 ]})
    as (gm & gn & H1 & H2 & H3 & _);
    [reflexivity | reflexivity | lia | lia |].
  by exists gm, gn.
Defined.

End AddmmFacts.

(** ** Splitting what was joined *)

Module StringFacts.
Import Py Exn Triton Tuner More.

Lemma append_cons x (a b : string) :
  String.append (String x a) b = String x (String.append a b).
Proof. reflexivity. Qed.

Lemma append_nil_l (b : string) : String.append "" b = b.
Proof. reflexivity. Qed.

Lemma append_assoc (a b c : string) :
  String.append (String.append a b) c = String.append a (String.append b c).
Proof.
  induction a as [|x a IH]; [done|]. rewrite !append_cons. by f_equal.
Qed.

Lemma append_nil_r (a : string) : String.append a "" = a.
Proof. induction a as [|x a IH]; [done|]. rewrite append_cons. by f_equal. Qed.

Lemma prefix_append (s r : string) : String.prefix s (String.append s r) = true.
Proof.
  induction s as [|a s IH]; [by destruct r|].
  rewrite append_cons. simpl. destruct (ascii_dec a a); [done|congruence].
Qed.

Lemma no_char_append c (a b : string) :
  no_char c (String.append a b) = no_char c a && no_char c b.
Proof.
  induction a as [|x a IH]; [done|]. rewrite append_cons. simpl.
  rewrite IH. apply andb_assoc.
Qed.

Section Split.
Context (c0 : ascii) (sep' : string).
Let sep : string := String c0 sep'.

Lemma split_skip (x : string) cur rest :
  split_aux sep (String.length x) cur (String.append x rest)
  = split_aux sep 0 cur rest.
Proof.
  induction x as [|a x IH]; [done|]. rewrite append_cons. simpl. exact IH.
Qed.

Lemma split_piece (s : string) cur :
  no_char c0 s = true → split_aux sep 0 cur s = [String.append cur s].
Proof.
  revert cur. induction s as [|a s IH]; intros cur Hs; simpl in *.
  - by rewrite append_nil_r.
  - apply andb_true_iff in Hs as [Ha Hs].
    destruct (ascii_dec c0 a) as [->|Hne].
    { by rewrite Ascii.eqb_refl in Ha. }
    rewrite IH by done. by rewrite append_assoc.
Qed.

Lemma split_piece_sep (s : string) cur rest :
  no_char c0 s = true →
  split_aux sep 0 cur (String.append s (String.append sep rest))
  = String.append cur s :: split_aux sep 0 "" rest.
Proof.
  revert cur. induction s as [|a s IH]; intros cur Hs.
  - rewrite append_nil_l, append_nil_r. unfold sep at 2.
    rewrite append_cons. simpl.
    destruct (ascii_dec c0 c0) as [_|]; [|done].
    rewrite prefix_append. f_equal.
    replace (String.length sep' - 0)%nat with (String.length sep') by lia.
    apply split_skip.
  - rewrite append_cons. simpl in *.
    apply andb_true_iff in Hs as [Ha Hs].
    destruct (ascii_dec c0 a) as [->|Hne].
    { by rewrite Ascii.eqb_refl in Ha. }
    rewrite IH by done. by rewrite append_assoc.
Qed.

(** [sep.join(items).split(sep)] gives the items back when none of them has
    the first character of [sep]. *)
Lemma split_join (items : list string) :
  items ≠ [] → Forall (λ s, no_char c0 s = true) items →
  split sep (join sep items) = items.
Proof.
  intros Hne Hall. unfold split.
  induction Hall as [|x l Hx Hl IH]; [done|].
  destruct l as [|y l].
  - simpl. by rewrite split_piece.
  - change (join sep (x :: y :: l))
      with (String.append x (String.append sep (join sep (y :: l)))).
    rewrite split_piece_sep by done. rewrite append_nil_l.
    f_equal. by apply IH.
Qed.

End Split.

End StringFacts.

(** ** The config text reads back *)

Module ConfigFacts.
Import Py Exn Triton Tuner More StringFacts.

Lemma digits_no_comma d : no_char "," (NilEmpty.string_of_uint d) = true.
Proof. induction d; simpl; done. Qed.

Lemma digits_no_colon d : no_char ":" (NilEmpty.string_of_uint d) = true.
Proof. induction d; simpl; done. Qed.

Lemma uint_no_comma d : no_char "," (NilZero.string_of_uint d) = true.
Proof. destruct d; try done; apply (digits_no_comma (_ d)). Qed.

Lemma uint_no_colon d : no_char ":" (NilZero.string_of_uint d) = true.
Proof. destruct d; try done; apply (digits_no_colon (_ d)). Qed.

Lemma decimal_plain z : plain_name (decimal z) = true.
Proof.
  unfold plain_name, decimal.
  destruct (Z.to_int z); simpl; by rewrite ?uint_no_comma, ?uint_no_colon.
Qed.

Lemma to_int_nonnil z :
  Z.to_int z ≠ Decimal.Pos Decimal.Nil ∧ Z.to_int z ≠ Decimal.Neg Decimal.Nil.
Proof.
  destruct z as [|p|p]; simpl; split; try discriminate;
    intros [= H]; by apply DecimalPos.Unsigned.to_uint_nonnil in H.
Qed.

Lemma parse_decimal z :
  NilZero.int_of_string (decimal z) = Some (Z.to_int z).
Proof.
  destruct (to_int_nonnil z) as [H1 H2]. by apply NilZero.isi.
Qed.


Lemma decimal_not_keyword z :
  String.eqb (decimal z) "None" = false ∧
  String.eqb (decimal z) "True" = false ∧
  String.eqb (decimal z) "False" = false.
Proof.
  unfold decimal. destruct (to_int_nonnil z) as [H1 H2].
  destruct (Z.to_int z) as [d|d]; destruct d; simpl; done.
Qed.

Lemma literal_eval_decimal z : literal_eval (decimal z) = Ret (VInt z).
Proof.
  unfold literal_eval.
  destruct (decimal_not_keyword z) as (-> & -> & ->).
  by rewrite parse_decimal, DecimalZ.of_to.
Qed.








End ConfigFacts.

(** ** Decoding the key text *)

Module KeyTextFacts.
Import Py Exn Triton Tuner More StringFacts ConfigFacts.

Lemma length_append (a b : string) :
  String.length (String.append a b) = (String.length a + String.length b)%nat.
Proof.
  induction a as [|x a IH]; [done|]. rewrite append_cons. simpl. by rewrite IH.
Qed.

Lemma substring_prefix (s r : string) :
  substring 0 (String.length s) (String.append s r) = s.
Proof.
  induction s as [|x s IH]; [by destruct r|].
  rewrite append_cons. simpl. by rewrite IH.
Qed.

Lemma substring_suffix (s r : string) :
  substring (String.length s) (String.length r) (String.append s r) = r.
Proof.
  induction s as [|x s IH].
  - rewrite append_nil_l. simpl.
    rewrite <- (append_nil_r r) at 2. apply substring_prefix.
  - rewrite append_cons. simpl. exact IH.
Qed.

Lemma drop_last_snoc (s : string) (c : ascii) :
  drop_last (String.append s (String c "")) = s.
Proof.
  unfold drop_last. rewrite length_append. simpl.
  replace (String.length s + 1 - 1)%nat with (String.length s) by lia.
  apply substring_prefix.
Qed.

Lemma strip_ends_parens (s : string) :
  strip_ends (String.append "(" (String.append s ")")) = s.
Proof.
  unfold strip_ends. rewrite append_cons, append_nil_l. simpl.
  rewrite length_append. simpl.
  replace (String.length s + 1 - 1)%nat with (String.length s) by lia.
  apply substring_prefix.
Qed.

(** When [eval] raises, [getvalue] takes the piece between the first and
    the second dot and drops its last character: a token without a dot
    raises IndexError, and a token [pre.name] followed by exactly one more
    character (the closing quote of a quoted dtype name) is looked up as
    [getattr(torch, name)]. *)
Theorem getvalue_fallback (I : Interp) (tok : string) :
  returns (py_eval I tok) = false →
  (no_char "." tok = true → getvalue I tok = Raise IndexError) ∧
  (∀ pre name c,
     tok = String.append pre
             (String.append "." (String.append name (String c ""))) →
     no_char "." pre = true → no_char "." name = true →
     Ascii.eqb c "." = false →
     getvalue I tok = torch_getattr I name).
Proof.
  intros Hev. unfold getvalue.
  destruct (py_eval I tok) as [v|x]; [done|]. split.
  - intros Hdot. unfold split. by rewrite (split_piece "." "") by done.
  - intros pre name c -> Hpre Hname Hc. unfold split.
    rewrite (split_piece_sep "." "") by done.
    rewrite (split_piece "." "").
    2:{ rewrite no_char_append, Hname. simpl. by rewrite Hc. }
    simpl. by rewrite append_nil_l, drop_last_snoc.
Qed.

Lemma getvalue_fallback_witness :
  getvalue literals "np.float16'" = Ret (VDtype float16).
Proof.
  destruct (getvalue_fallback literals "np.float16'" eq_refl) as [_ H].
  rewrite (H "np" "float16" "'"%char); reflexivity.
Defined.

Lemma uint_of_quote s :
  NilEmpty.uint_of_string (String "'" s) = None.
Proof. simpl. by destruct (NilEmpty.uint_of_string s). Qed.

Lemma literal_eval_quoted s :
  literal_eval (String.append "'" (String.append s "'")) = Ret (VStr s).
Proof.
  unfold literal_eval. rewrite append_cons, append_nil_l.
  cbn [String.eqb Ascii.eqb Bool.eqb].
  assert (NilZero.int_of_string (String "'" (String.append s "'")) = None) as ->.
  { unfold NilZero.int_of_string, NilZero.uint_of_string.
    cbn [Ascii.eqb Bool.eqb]. simpl.
    by destruct (NilEmpty.uint_of_string (String.append s "'")). }
  unfold quoted. rewrite length_append.
  change (String.length "'") with 1%nat. rewrite Nat.add_sub.
  assert ((1 <=? String.length s + 1)%nat = true) as ->
    by (apply Nat.leb_le; lia).
  pose proof (substring_suffix s "'") as Hs.
  change (String.length "'") with 1%nat in Hs.
  rewrite Hs. simpl. by rewrite drop_last_snoc.
Qed.

Lemma literal_eval_dtype d :
  literal_eval (py_repr (VDtype d)) = Ret (VDtype d).
Proof. by destruct d. Qed.

Lemma literal_eval_token v :
  token_value v = true → literal_eval (py_repr v) = Ret v.
Proof.
  destruct v as [ |[]| |s| | | | | | ]; try done.
  - intros _. apply literal_eval_decimal.
  - intros _. apply literal_eval_quoted.
  - intros _. apply literal_eval_dtype.
Qed.

Lemma getvalue_token v :
  token_value v = true → getvalue literals (py_repr v) = Ret v.
Proof.
  intros Hv. unfold getvalue.
  change (py_eval literals (py_repr v)) with (literal_eval (py_repr v)).
  by rewrite literal_eval_token.
Qed.

Lemma iterate_cons I tok toks :
  iterate I (tok :: toks)
  = (v ← getvalue I tok; vs ← iterate I toks; Ret (v :: vs)).
Proof. reflexivity. Qed.

Lemma py_repr_token v :
  token_value v = true → no_char "," (py_repr v) = true.
Proof.
  destruct v as [ |[]| |s| | | | | | ]; try done.
  - intros _. by pose proof (decimal_plain z) as [? _]%andb_true_iff.
  - intros [_ Hs]%andb_true_iff.
    change (no_char "," (String.append "'" (String.append s "'")) = true).
    by rewrite !no_char_append, Hs.
  - intros _. by destruct d.
Qed.

Lemma py_repr_tuple l :
  py_repr (VTuple l)
  = String.append "("
      (String.append (join ", " (map py_repr l))
         (String.append (match l with [_] => "," | _ => "" end) ")")).
Proof. reflexivity. Qed.

(** The tokens that line 64 hands to the generator for a row written by
    [store] are the literals of the key's items: iterating the generator
    would call [getvalue] on them and yield the items of the original key.
    This holds for a key of at least two items that are [None], booleans,
    integers, dtypes or printable comma-free strings. *)
Theorem key_tokens_decode (items : list pyval) :
  (2 ≤ length items)%nat →
  Forall (λ v, token_value v = true) items →
  iterate literals (split ", " (strip_ends (py_str (VTuple items))))
  = Ret items.
Proof.
  intros Hlen Hall.
  change (py_str (VTuple items)) with (py_repr (VTuple items)).
  rewrite py_repr_tuple.
  assert ((match items with [_] => "," | _ => "" end) = "") as ->
    by (by destruct items as [|? [|? ?]]; simpl in *; try lia).
  rewrite append_nil_l, strip_ends_parens.
  rewrite (split_join "," " ").
  - clear Hlen. induction Hall as [|v l Hv _ IH]; [done|].
    change (map py_repr (v :: l)) with (py_repr v :: map py_repr l).
    rewrite iterate_cons, (getvalue_token v Hv), IH. reflexivity.
  - destruct items; simpl in *; [lia|done].
  - apply Forall_fmap. eapply Forall_impl; [exact Hall|].
    intros v Hv. by apply py_repr_token.
Qed.

Lemma key_tokens_decode_witness :
  iterate literals
    (split ", "
       (strip_ends
          (py_str (VTuple [VInt 64; VInt 64; VBool true; VStr "torch.float16"]))))
  = Ret [VInt 64; VInt 64; VBool true; VStr "torch.float16"].
Proof.
  apply key_tokens_decode; [simpl; lia | repeat constructor].
Defined.

End KeyTextFacts.
